(** * Button driver (drivers/drv_button.c): registry, lookup, callback binding

    A shallow embedding of the six-key button driver and of the boundary it
    consumes (the RT-Thread kernel services and the button detection
    package), followed by the properties of the driver's entry points. *)

From stdpp Require Import gmap strings list fin_maps.
From Stdlib Require Import ZArith Ascii String.

(** ** RT-Thread kernel boundary (rtdef.h, kservice.c, pin.h) *)

Module RT.

Definition rt_err_t := Z.
Definition RT_EOK : rt_err_t := 0%Z.
Definition RT_ERROR : rt_err_t := 1%Z.

Definition PIN_LOW : Z := 0%Z.
Definition PIN_HIGH : Z := 1%Z.
Definition PIN_MODE_INPUT_PULLUP : Z := 2%Z.

(** A [const char *] argument is the characters stored from the pointer
    on; [deref] reads the character under the pointer (the terminating NUL
    at the end of the stored characters) and [next] is [s + 1]. *)
Definition deref (s : string) : Z :=
  match s with
  | EmptyString => 0%Z
  | String c _ => Z.of_N (N_of_ascii c)
  end.

Definition next (s : string) : string :=
  match s with
  | EmptyString => EmptyString
  | String _ s' => s'
  end.

(** The C string a pointer denotes: the characters before the first NUL. *)
Fixpoint c_str (s : string) : string :=
  match s with
  | EmptyString => EmptyString
  | String c s' =>
      if (Z.of_N (N_of_ascii c) =? 0)%Z then EmptyString
      else String c (c_str s')
  end.

(** No NUL among the stored characters: the stored characters are the C
    string. *)
Fixpoint nul_free (s : string) : bool :=
  match s with
  | EmptyString => true
  | String c s' => negb (Z.of_N (N_of_ascii c) =? 0)%Z && nul_free s'
  end.

(** Modelled from the spec: lookup compares names. [rt_strcmp] is the
    kernel's string comparison (kservice.c, not among the driver's files):
    it advances both pointers while the character under [cs] is not NUL
    and equals the one under [ct], then returns the difference of the two
    characters it stopped at. *)
Fixpoint rt_strcmp (cs ct : string) : Z :=
  match cs with
  | EmptyString => (deref cs - deref ct)%Z
  | String _ cs' =>
      if negb (deref cs =? 0)%Z && (deref cs =? deref ct)%Z
      then rt_strcmp cs' (next ct)
      else (deref cs - deref ct)%Z
  end.

End RT.
Import RT.

(** ** The button package's types (button.h) *)

(** Event kinds, with the package's spelling. [BUTTON_ALL_RIGGER] is the
    attach-time wildcard and [NONE_TRIGGER] the "no trigger" sentinel. *)
Inductive Button_Event : Set :=
| BUTTON_DOWM
| BUTTON_UP
| BUTTON_DOUBLE
| BUTTON_LONG
| BUTTON_LONG_FREE
| BUTTON_CONTINUOS
| BUTTON_CONTINUOS_FREE
| BUTTON_ALL_RIGGER
| NONE_TRIGGER.

Definition event_code (e : Button_Event) : nat :=
  match e with
  | BUTTON_DOWM => 0
  | BUTTON_UP => 1
  | BUTTON_DOUBLE => 2
  | BUTTON_LONG => 3
  | BUTTON_LONG_FREE => 4
  | BUTTON_CONTINUOS => 5
  | BUTTON_CONTINUOS_FREE => 6
  | BUTTON_ALL_RIGGER => 7
  | NONE_TRIGGER => 8
  end.

Definition event_of_code (n : nat) : Button_Event :=
  match n with
  | 0 => BUTTON_DOWM
  | 1 => BUTTON_UP
  | 2 => BUTTON_DOUBLE
  | 3 => BUTTON_LONG
  | 4 => BUTTON_LONG_FREE
  | 5 => BUTTON_CONTINUOS
  | 6 => BUTTON_CONTINUOS_FREE
  | 7 => BUTTON_ALL_RIGGER
  | _ => NONE_TRIGGER
  end.

#[global] Instance Button_Event_eq_dec : EqDecision Button_Event.
Proof. solve_decision. Defined.

#[global] Instance Button_Event_countable : Countable Button_Event :=
  inj_countable' event_code event_of_code
    (fun e => match e with
              | BUTTON_DOWM | BUTTON_UP | BUTTON_DOUBLE | BUTTON_LONG
              | BUTTON_LONG_FREE | BUTTON_CONTINUOS | BUTTON_CONTINUOS_FREE
              | BUTTON_ALL_RIGGER | NONE_TRIGGER => eq_refl
              end).

(** The kinds the detection engine can report: every kind but the wildcard
    and the sentinel. *)
Definition trigger_kinds : list Button_Event :=
  [BUTTON_DOWM; BUTTON_UP; BUTTON_DOUBLE; BUTTON_LONG; BUTTON_LONG_FREE;
   BUTTON_CONTINUOS; BUTTON_CONTINUOS_FREE].

(** [Button_CallBack] is a function pointer; a callback is identified by the
    function it points to. The two handlers of the repository are named,
    [app_callback] stands for any handler of the application. *)
Inductive Button_CallBack : Set :=
| button_callback
| test_button_callback
| app_callback (id : nat).

#[global] Instance Button_CallBack_eq_dec : EqDecision Button_CallBack.
Proof. solve_decision. Defined.

(** ** Driver statics (drv_button.c, lines 57-62 and 80-143) *)

(** The address of one of the six static [Button_t] objects; [RT_NULL] is
    [None] at type [option Button_ptr]. *)
Inductive Button_ptr : Set :=
| key1_btn
| key2_btn
| key3_btn
| key4_btn
| key5_btn
| key6_btn.

#[global] Instance Button_ptr_eq_dec : EqDecision Button_ptr.
Proof. solve_decision. Defined.

(** The position of a static among the six (drv_button.h, button_key_t). *)
Definition button_index (btn : Button_ptr) : nat :=
  match btn with
  | key1_btn => 0
  | key2_btn => 1
  | key3_btn => 2
  | key4_btn => 3
  | key5_btn => 4
  | key6_btn => 5
  end.

Definition button_of_index (n : nat) : Button_ptr :=
  match n with
  | 0 => key1_btn
  | 1 => key2_btn
  | 2 => key3_btn
  | 3 => key4_btn
  | 4 => key5_btn
  | _ => key6_btn
  end.

#[global] Instance Button_ptr_countable : Countable Button_ptr :=
  inj_countable' button_index button_of_index
    (fun btn => match btn with
                | key1_btn | key2_btn | key3_btn
                | key4_btn | key5_btn | key6_btn => eq_refl
                end).

Definition all_buttons : list Button_ptr :=
  [key1_btn; key2_btn; key3_btn; key4_btn; key5_btn; key6_btn].

(** The six level-read functions, as function pointers. *)
Inductive Level_Source : Set :=
| key1_read_level
| key2_read_level
| key3_read_level
| key4_read_level
| key5_read_level
| key6_read_level.

#[global] Instance Level_Source_eq_dec : EqDecision Level_Source.
Proof. solve_decision. Defined.

Inductive GPIO_Port : Set := GPIOA | GPIOB | GPIOC.

(** ** Name lookup (drv_button.c, lines 240-273) *)

Definition drv_button_get_handle (key_name : option string) : option Button_ptr :=
  match key_name with
  | None => None
  | Some key_name =>
      if (rt_strcmp key_name "key1" =? 0)%Z then Some key1_btn
      else if (rt_strcmp key_name "key2" =? 0)%Z then Some key2_btn
      else if (rt_strcmp key_name "key3" =? 0)%Z then Some key3_btn
      else if (rt_strcmp key_name "key4" =? 0)%Z then Some key4_btn
      else if (rt_strcmp key_name "key5" =? 0)%Z then Some key5_btn
      else if (rt_strcmp key_name "key6" =? 0)%Z then Some key6_btn
      else None
  end.

(** The configured name set (drv_button.h, BUTTON_KEY1_NAME..BUTTON_KEY6_NAME). *)
Definition BUTTON_KEY_NAMES : list string :=
  ["key1"; "key2"; "key3"; "key4"; "key5"; "key6"]%string.

(** The name under which [drv_button_init] creates each static. *)
Definition key_name_of (btn : Button_ptr) : string :=
  match btn with
  | key1_btn => "key1"
  | key2_btn => "key2"
  | key3_btn => "key3"
  | key4_btn => "key4"
  | key5_btn => "key5"
  | key6_btn => "key6"
  end.

(** ** A state monad for the driver's calls *)

Definition State (S A : Type) : Type := S -> A * S.

Definition ret {S A : Type} (a : A) : State S A := fun s => (a, s).

Definition bind {S A B : Type} (m : State S A) (k : A -> State S B) : State S B :=
  fun s => let (a, s') := m s in k a s'.

Definition eval {S A : Type} (m : State S A) (s : S) : A := fst (m s).

Definition exec {S A : Type} (m : State S A) (s : S) : S := snd (m s).

Declare Scope drv_scope.
Delimit Scope drv_scope with drv.
Notation "x <- m ;; k" := (bind m (fun x => k))
  (at level 100, m at next level, k at level 200, right associativity) : drv_scope.
Notation "m ;; k" := (bind m (fun _ => k))
  (at level 100, k at level 200, right associativity) : drv_scope.
Open Scope drv_scope.

(** ** The platform the driver is built against *)

(** What the driver consumes and the repository does not define. [GET_PIN]
    is the board-support macro GET_PIN(port, n) (drv_common.h): the pin
    numbering. The detection algorithm of the button package (debounce,
    double click, long press) is a black box: from its internal timing
    state, the level sampled this tick and the entity's trigger level,
    [detect] gives the next internal state, the entity's state, and the
    event kind reported for this tick, if any; [timing0] is the internal
    state of a new entity. *)
Class Platform : Type := {
  GET_PIN : GPIO_Port -> Z -> Z;
  Timing : Type;
  timing0 : Timing;
  detect : Timing -> Z -> Z -> Timing * Button_Event * option Button_Event
}.

Section Driver.

Context {P : Platform}.

(** Modelled from the spec: the Button Entity of the data model (the
    package's [struct button], button.h, is not among the driver's files):
    name, level source, trigger level, one callback slot per event kind,
    and the state and event the engine caches; [Timing_State] is the
    engine's own. *)
Record Button_t : Type := mkButton {
  Name : string;
  Read_Button_Level : option Level_Source;
  Button_Trigger_Level : Z;
  CallBack_Function : gmap Button_Event Button_CallBack;
  Button_State : Button_Event;
  Button_Trigger_Event : Button_Event;
  Timing_State : Timing
}.

(** The six statics of drv_button.c, lines 57-62. *)
Record Buttons : Type := mkButtons {
  mem_key1 : Button_t;
  mem_key2 : Button_t;
  mem_key3 : Button_t;
  mem_key4 : Button_t;
  mem_key5 : Button_t;
  mem_key6 : Button_t
}.

(** What the driver's calls can read or change: the board's pins (which
    pins exist, their configured mode, their electrical level), the six
    statics, the set of entities registered with the engine, and the
    handler invocations made so far. *)
Record World : Type := mkWorld {
  pin_valid : Z -> bool;
  pin_mode : gmap Z Z;
  pin_level : Z -> Z;
  buttons : Buttons;
  registered : gset Button_ptr;
  calls : list (Button_CallBack * Button_ptr)
}.

Definition set_pin_mode (m : gmap Z Z) (w : World) : World :=
  mkWorld (pin_valid w) m (pin_level w) (buttons w) (registered w) (calls w).

Definition set_buttons (m : Buttons) (w : World) : World :=
  mkWorld (pin_valid w) (pin_mode w) (pin_level w) m (registered w) (calls w).

Definition set_registered (l : gset Button_ptr) (w : World) : World :=
  mkWorld (pin_valid w) (pin_mode w) (pin_level w) (buttons w) l (calls w).

Definition set_calls (c : list (Button_CallBack * Button_ptr)) (w : World) : World :=
  mkWorld (pin_valid w) (pin_mode w) (pin_level w) (buttons w) (registered w) c.

(** Reading and writing a static through its address. *)
Definition load (btn : Button_ptr) (w : World) : Button_t :=
  match btn with
  | key1_btn => mem_key1 (buttons w)
  | key2_btn => mem_key2 (buttons w)
  | key3_btn => mem_key3 (buttons w)
  | key4_btn => mem_key4 (buttons w)
  | key5_btn => mem_key5 (buttons w)
  | key6_btn => mem_key6 (buttons w)
  end.

Definition store (btn : Button_ptr) (b : Button_t) (w : World) : World :=
  let m := buttons w in
  set_buttons
    match btn with
    | key1_btn => mkButtons b (mem_key2 m) (mem_key3 m) (mem_key4 m) (mem_key5 m) (mem_key6 m)
    | key2_btn => mkButtons (mem_key1 m) b (mem_key3 m) (mem_key4 m) (mem_key5 m) (mem_key6 m)
    | key3_btn => mkButtons (mem_key1 m) (mem_key2 m) b (mem_key4 m) (mem_key5 m) (mem_key6 m)
    | key4_btn => mkButtons (mem_key1 m) (mem_key2 m) (mem_key3 m) b (mem_key5 m) (mem_key6 m)
    | key5_btn => mkButtons (mem_key1 m) (mem_key2 m) (mem_key3 m) (mem_key4 m) b (mem_key6 m)
    | key6_btn => mkButtons (mem_key1 m) (mem_key2 m) (mem_key3 m) (mem_key4 m) (mem_key5 m) b
    end w.

(** *** Board boundary (pin.h) *)

(** Modelled from the spec: pin configuration as pulled-up input, applied
    to the board's mode table. [rt_pin_mode] returns nothing: a pin the
    board does not have is left unconfigured without any report. *)
Definition apply_mode (valid : Z -> bool) (mode pin : Z) (m : gmap Z Z) : gmap Z Z :=
  if valid pin then <[pin := mode]> m else m.

Definition rt_pin_mode (pin mode : Z) : State World unit := fun w =>
  (tt, set_pin_mode (apply_mode (pin_valid w) mode pin (pin_mode w)) w).

(** Modelled from the spec: the level source samples one digital pin. *)
Definition rt_pin_read (pin : Z) : State World Z := fun w => (pin_level w pin, w).

(** *** Pins and level sources (drv_button.c, lines 37-45 and 80-143) *)

Definition KEY1_PIN : Z := GET_PIN GPIOC 4.
Definition KEY2_PIN : Z := GET_PIN GPIOB 14.
Definition KEY3_PIN : Z := GET_PIN GPIOA 0.
Definition KEY4_PIN : Z := GET_PIN GPIOA 8.
Definition KEY5_PIN : Z := GET_PIN GPIOB 7.
Definition KEY6_PIN : Z := GET_PIN GPIOA 15.

Definition KEY_TRIGGER_LEVEL : Z := PIN_LOW.

(** The conversion of a signed integer to [rt_uint8_t]: the value modulo
    256. *)
Definition to_rt_uint8_t (z : Z) : Z := (z mod 256)%Z.

(** lines 80-143. Each level source returns [rt_uint8_t]: the signed
    result of [rt_pin_read] is converted on return. *)
Definition key1_read_level_body : State World Z :=
  level <- rt_pin_read KEY1_PIN ;; ret (to_rt_uint8_t level).

Definition key2_read_level_body : State World Z :=
  level <- rt_pin_read KEY2_PIN ;; ret (to_rt_uint8_t level).

Definition key3_read_level_body : State World Z :=
  level <- rt_pin_read KEY3_PIN ;; ret (to_rt_uint8_t level).

Definition key4_read_level_body : State World Z :=
  level <- rt_pin_read KEY4_PIN ;; ret (to_rt_uint8_t level).

Definition key5_read_level_body : State World Z :=
  level <- rt_pin_read KEY5_PIN ;; ret (to_rt_uint8_t level).

Definition key6_read_level_body : State World Z :=
  level <- rt_pin_read KEY6_PIN ;; ret (to_rt_uint8_t level).

(** Calling a level source through its pointer runs the function's body. *)
Definition read_level (f : Level_Source) : State World Z :=
  match f with
  | key1_read_level => key1_read_level_body
  | key2_read_level => key2_read_level_body
  | key3_read_level => key3_read_level_body
  | key4_read_level => key4_read_level_body
  | key5_read_level => key5_read_level_body
  | key6_read_level => key6_read_level_body
  end.

(** *** Detection engine boundary (button.c of the button package) *)

(** A callback slot holds a function pointer or NULL. *)
Definition set_slot (K : Button_Event) (cb : option Button_CallBack)
    (tbl : gmap Button_Event Button_CallBack) : gmap Button_Event Button_CallBack :=
  partial_alter (fun _ => cb) K tbl.

(** Modelled from the spec: [create(name, entity_storage, level_source_fn,
    trigger_level)] constructs the entity in the given storage, with no
    callback bound and no trigger cached, and associates it with the
    engine; the registry is a set of entities. *)
Definition Button_Create (name : string) (btn : Button_ptr)
    (read_btn_level : Level_Source) (btn_trigger_level : Z) : State World unit := fun w =>
  let w1 :=
    store btn
      {| Name := name;
         Read_Button_Level := Some read_btn_level;
         Button_Trigger_Level := btn_trigger_level;
         CallBack_Function := ∅;
         Button_State := NONE_TRIGGER;
         Button_Trigger_Event := NONE_TRIGGER;
         Timing_State := timing0 |} w in
  (tt, set_registered ({[btn]} ∪ registered w1) w1).

(** Modelled from the spec: [attach(entity, event_kind, callback_fn)]
    installs the callback for the kind, overwriting the previous binding;
    with the wildcard kind it installs the same callback for every kind
    the engine can report. *)
Definition Button_Attach (btn : Button_ptr) (btn_event : Button_Event)
    (btn_callback : option Button_CallBack) : State World unit := fun w =>
  let b := load btn w in
  let tbl :=
    if decide (btn_event = BUTTON_ALL_RIGGER)
    then foldr (fun K t => set_slot K btn_callback t) (CallBack_Function b) trigger_kinds
    else set_slot btn_event btn_callback (CallBack_Function b) in
  (tt, store btn
         (mkButton (Name b) (Read_Button_Level b) (Button_Trigger_Level b) tbl
                   (Button_State b) (Button_Trigger_Event b) (Timing_State b)) w).

(** Modelled from the spec: [delete(entity)] releases the entity's
    association with the engine. *)
Definition Button_Delete (btn : Button_ptr) : State World unit := fun w =>
  (tt, set_registered (registered w ∖ {[btn]}) w).

(** Modelled from the spec: [get_state(entity)] and [get_event(entity)]
    return the cached state and event. *)
Definition Get_Button_State (btn : Button_ptr) : State World Button_Event := fun w =>
  (Button_State (load btn w), w).

Definition Get_Button_Event (btn : Button_ptr) : State World Button_Event := fun w =>
  (Button_Trigger_Event (load btn w), w).

(** The wildcard and the sentinel are never produced as an observed event. *)
Definition observed (out : option Button_Event) : option Button_Event :=
  match out with
  | Some K => if decide (K ∈ trigger_kinds) then Some K else None
  | None => None
  end.

(** The handlers the application brings. The body of an application
    handler is code outside the driver: called with the entity's address
    it may do anything to the board and to the driver's data (attach a
    callback, read a state, write to an entity). *)
Class Application : Type := {
  app_handler : nat -> Button_ptr -> World -> World
}.

Context {App : Application}.

(** The body of a handler. The two handlers of the repository
    ([button_callback], drv_button.c lines 150-190, and
    [test_button_callback], drv_button_test.c lines 34-75) read the
    entity's event and print a line that depends on it. *)
Definition handler_body (cb : Button_CallBack) (btn : Button_ptr) : State World unit :=
  match cb with
  | button_callback => event <- Get_Button_Event btn ;; ret tt
  | test_button_callback => event <- Get_Button_Event btn ;; ret tt
  | app_callback id => fun w => (tt, app_handler id btn w)
  end.

(** The engine calls a handler with the entity's address: the body runs,
    and the call is added to the record of the calls the engine made. The
    record is not data of the program: no body reads or changes it. *)
Definition invoke (cb : Button_CallBack) (btn : Button_ptr) : State World unit := fun w =>
  (tt, set_calls (calls w ++ [(cb, btn)]) (exec (handler_body cb btn) w)).

(** Modelled from the spec: one tick of one entity. The level is read from
    the entity's level source; the engine decides; on a transition the
    event is cached and the callback bound to its kind, if any, is called
    with the entity. *)
Definition Button_Cycle_Process (btn : Button_ptr) : State World unit := fun w =>
  let b := load btn w in
  match Read_Button_Level b with
  | None => ret tt w
  | Some f =>
      (level <- read_level f ;;
       fun w =>
         let '(t, st, out) := detect (Timing_State b) level (Button_Trigger_Level b) in
         match observed out with
         | None =>
             (tt, store btn
                    (mkButton (Name b) (Read_Button_Level b) (Button_Trigger_Level b)
                       (CallBack_Function b) st (Button_Trigger_Event b) t) w)
         | Some K =>
             (match CallBack_Function b !! K with
              | Some cb => invoke cb btn
              | None => ret tt
              end)
               (store btn
                  (mkButton (Name b) (Read_Button_Level b) (Button_Trigger_Level b)
                     (CallBack_Function b) st K t) w)
         end) w
  end.

Fixpoint process_list (l : list Button_ptr) : State World unit :=
  match l with
  | [] => ret tt
  | btn :: l' => Button_Cycle_Process btn ;; process_list l'
  end.

(** The registered entities, in the order of the registry's six statics. *)
Definition registry_order (w : World) : list Button_ptr :=
  filter (fun btn => btn ∈ registered w) all_buttons.

(** Modelled from the spec: [process_all_registered()], one tick for each
    registered entity, in registry order. *)
Definition Button_Process : State World unit := fun w =>
  process_list (registry_order w) w.

(** *** The driver (drv_button.c) *)

(** lines 199-230 *)
Definition drv_button_init : State World rt_err_t :=
  rt_pin_mode KEY1_PIN PIN_MODE_INPUT_PULLUP ;;
  rt_pin_mode KEY2_PIN PIN_MODE_INPUT_PULLUP ;;
  rt_pin_mode KEY3_PIN PIN_MODE_INPUT_PULLUP ;;
  rt_pin_mode KEY4_PIN PIN_MODE_INPUT_PULLUP ;;
  rt_pin_mode KEY5_PIN PIN_MODE_INPUT_PULLUP ;;
  rt_pin_mode KEY6_PIN PIN_MODE_INPUT_PULLUP ;;
  Button_Create "key1" key1_btn key1_read_level KEY_TRIGGER_LEVEL ;;
  Button_Create "key2" key2_btn key2_read_level KEY_TRIGGER_LEVEL ;;
  Button_Create "key3" key3_btn key3_read_level KEY_TRIGGER_LEVEL ;;
  Button_Create "key4" key4_btn key4_read_level KEY_TRIGGER_LEVEL ;;
  Button_Create "key5" key5_btn key5_read_level KEY_TRIGGER_LEVEL ;;
  Button_Create "key6" key6_btn key6_read_level KEY_TRIGGER_LEVEL ;;
  Button_Attach key1_btn BUTTON_ALL_RIGGER (Some button_callback) ;;
  Button_Attach key2_btn BUTTON_ALL_RIGGER (Some button_callback) ;;
  Button_Attach key3_btn BUTTON_ALL_RIGGER (Some button_callback) ;;
  Button_Attach key4_btn BUTTON_ALL_RIGGER (Some button_callback) ;;
  Button_Attach key5_btn BUTTON_ALL_RIGGER (Some button_callback) ;;
  Button_Attach key6_btn BUTTON_ALL_RIGGER (Some button_callback) ;;
  ret RT_EOK.

(** lines 281-296 *)
Definition drv_button_deinit : State World rt_err_t :=
  Button_Delete key1_btn ;;
  Button_Delete key2_btn ;;
  Button_Delete key3_btn ;;
  Button_Delete key4_btn ;;
  Button_Delete key5_btn ;;
  Button_Delete key6_btn ;;
  ret RT_EOK.

(** lines 303-306 *)
Definition drv_button_process : State World unit :=
  Button_Process.

(** lines 319-327; the [rt_uint8_t] result is the event kind's code. *)
Definition drv_button_get_state (key_name : option string) : State World Button_Event :=
  let btn := drv_button_get_handle key_name in
  match btn with
  | Some btn => Get_Button_State btn
  | None => ret NONE_TRIGGER
  end.

(** lines 340-348 *)
Definition drv_button_get_event (key_name : option string) : State World Button_Event :=
  let btn := drv_button_get_handle key_name in
  match btn with
  | Some btn => Get_Button_Event btn
  | None => ret NONE_TRIGGER
  end.

(** lines 360-369 *)
Definition drv_button_attach_callback (key_name : option string)
    (event : Button_Event) (callback : option Button_CallBack) : State World rt_err_t :=
  let btn := drv_button_get_handle key_name in
  match btn, callback with
  | Some btn, Some _ => Button_Attach btn event callback ;; ret RT_EOK
  | _, _ => ret (- RT_ERROR)%Z
  end.

(** *** Observations used by the statements *)

(** What the detection algorithm reports for [btn] when its tick runs in
    [w]: the level source is sampled and the algorithm decides. *)
Definition reports (btn : Button_ptr) (w : World) : option Button_Event :=
  let b := load btn w in
  match Read_Button_Level b with
  | None => None
  | Some f =>
      observed (detect (Timing_State b) (eval (read_level f) w)
                  (Button_Trigger_Level b)).2
  end.

(** The entities of the list that are ticked before [btn]. *)
Fixpoint ticked_before (btn : Button_ptr) (l : list Button_ptr) : list Button_ptr :=
  match l with
  | [] => []
  | a :: l' => if decide (a = btn) then [] else a :: ticked_before btn l'
  end.

(** The state in which the tick of [btn] starts, in the poll that starts
    in [w]: the entities before it in registry order have been ticked and
    their handlers have run. *)
Definition tick_state (btn : Button_ptr) (w : World) : World :=
  exec (process_list (ticked_before btn (registry_order w))) w.

(** The event kind the engine emits on [btn] during the poll that starts
    in [w]: [btn] is registered and, when its tick comes, the algorithm
    reports a kind for it. *)
Definition engine_emits (btn : Button_ptr) (w : World) : option Button_Event :=
  if decide (btn ∈ registered w) then reports btn (tick_state btn w) else None.

(** The handler call the tick of [btn] makes in [w]. *)
Definition dispatched (btn : Button_ptr) (w : World) : list (Button_CallBack * Button_ptr) :=
  match reports btn w with
  | Some K =>
      match CallBack_Function (load btn w) !! K with
      | Some cb => [(cb, btn)]
      | None => []
      end
  | None => []
  end.

(** The handlers called with [btn] between [w] and a later [w'], in call
    order. *)
Definition handlers_run (btn : Button_ptr) (w w' : World) : list Button_CallBack :=
  (filter (fun c => c.2 = btn) (drop (List.length (calls w)) (calls w'))).*1.

(** The level source [drv_button_init] gives each static. *)
Definition level_source_of (btn : Button_ptr) : Level_Source :=
  match btn with
  | key1_btn => key1_read_level
  | key2_btn => key2_read_level
  | key3_btn => key3_read_level
  | key4_btn => key4_read_level
  | key5_btn => key5_read_level
  | key6_btn => key6_read_level
  end.

Definition key_pins : list Z :=
  [KEY1_PIN; KEY2_PIN; KEY3_PIN; KEY4_PIN; KEY5_PIN; KEY6_PIN].

(** The kinds a binding made with selector [event] covers. *)
Definition covers (event K : Button_Event) : Prop :=
  if decide (event = BUTTON_ALL_RIGGER) then K ∈ trigger_kinds else K = event.

#[global] Instance covers_dec (event K : Button_Event) : Decision (covers event K).
Proof. unfold covers. destruct (decide (event = BUTTON_ALL_RIGGER)); apply _. Defined.

(** *** What happens between an attach and a later poll *)

Definition set_pin_level (level : Z -> Z) (w : World) : World :=
  mkWorld (pin_valid w) (pin_mode w) level (buttons w) (registered w) (calls w).

(** A call of the driver's interface, or a change of the levels at the
    pins (keys pressed and released). *)
Inductive button_op : Type :=
| op_init
| op_deinit
| op_process
| op_get_state (key_name : option string)
| op_get_event (key_name : option string)
| op_attach_callback (key_name : option string) (event : Button_Event)
    (callback : option Button_CallBack)
| op_pins (level : Z -> Z).

Definition run_op (op : button_op) : State World unit :=
  match op with
  | op_init => result <- drv_button_init ;; ret tt
  | op_deinit => result <- drv_button_deinit ;; ret tt
  | op_process => drv_button_process
  | op_get_state key_name => state <- drv_button_get_state key_name ;; ret tt
  | op_get_event key_name => event <- drv_button_get_event key_name ;; ret tt
  | op_attach_callback key_name event callback =>
      result <- drv_button_attach_callback key_name event callback ;; ret tt
  | op_pins level => fun w => (tt, set_pin_level level w)
  end.

Fixpoint run_ops (ops : list button_op) : State World unit :=
  match ops with
  | [] => ret tt
  | op :: ops' => run_op op ;; run_ops ops'
  end.

(** The calls that bind the slot of [btn] for kind [K] anew:
    [drv_button_init], which creates every entity again, and a
    [drv_button_attach_callback] that succeeds on [btn] with a selector
    that covers [K]. *)
Definition rebinds (btn : Button_ptr) (K : Button_Event) (op : button_op) : bool :=
  match op with
  | op_init => true
  | op_attach_callback key_name event (Some _) =>
      bool_decide (drv_button_get_handle key_name = Some btn /\ covers event K)
  | _ => false
  end.

(** No application handler changes the callback bound to kind [K] of
    [btn]. *)
Definition handlers_keep (btn : Button_ptr) (K : Button_Event) : Prop :=
  forall (id : nat) (btn' : Button_ptr) (w : World),
    CallBack_Function (load btn (app_handler id btn' w)) !! K
    = CallBack_Function (load btn w) !! K.

(** No application handler writes the event the engine caches in [btn]. *)
Definition handlers_leave_event (btn : Button_ptr) : Prop :=
  forall (id : nat) (btn' : Button_ptr) (w : World),
    Button_Trigger_Event (load btn (app_handler id btn' w))
    = Button_Trigger_Event (load btn w).

End Driver.

(** ** A concrete board and engine *)

Module Demo.

(** The STM32 numbering of pins: sixteen per port. *)
Definition stm32_pin (port : GPIO_Port) (n : Z) : Z :=
  (16 * match port with GPIOA => 0 | GPIOB => 1 | GPIOC => 2 end + n)%Z.

(** An edge detector without debounce: the internal state records whether
    the key was down at the last tick. *)
Definition edge_detect (down : bool) (level trigger : Z)
    : bool * Button_Event * option Button_Event :=
  if (level =? trigger)%Z then
    if down then (true, BUTTON_DOWM, None) else (true, BUTTON_DOWM, Some BUTTON_DOWM)
  else
    if down then (false, BUTTON_UP, Some BUTTON_UP) else (false, NONE_TRIGGER, None).

Definition board : Platform :=
  {| GET_PIN := stm32_pin; Timing := bool; timing0 := false; detect := edge_detect |}.

(** A zero-initialised static. *)
Definition blank : @Button_t board :=
  @mkButton board "" None 0 ∅ BUTTON_DOWM BUTTON_DOWM false.

(** The board at power-on, with key 1 held down (PC4 low). *)
Definition power_on : @World board :=
  @mkWorld board (fun _ => true) ∅
    (fun pin => if (pin =? stm32_pin GPIOC 4)%Z then PIN_LOW else PIN_HIGH)
    (mkButtons blank blank blank blank blank blank) ∅ [].

(** After [drv_button_init]. *)
Definition ready : @World board := exec drv_button_init power_on.

(** An entity created by the application, with no callback bound. *)
Definition bare : @World board :=
  exec (Button_Create "key1" key1_btn key1_read_level PIN_LOW) power_on.

(** An application with two handlers of its own: handler 1 binds handler 0
    to the release of key 2; handler 0, and any other, works on data of
    the application only. *)
Definition app : @Application board :=
  {| app_handler := fun (id : nat) (btn : Button_ptr) (w : @World board) =>
       match id with
       | 1%nat =>
           exec (drv_button_attach_callback (Some "key2"%string) BUTTON_UP
                   (Some (app_callback 0))) w
       | _ => w
       end |}.

Definition key1_down (pin : Z) : Z :=
  if (pin =? stm32_pin GPIOC 4)%Z then PIN_LOW else PIN_HIGH.

Definition keys_up (pin : Z) : Z := PIN_HIGH.

(** After handler 0 was bound to the press of key 1: a poll with the key
    down, handler 1 bound to the release of key 1, the key released, a
    poll, a query, and the key pressed again. *)
Definition later : list button_op :=
  [op_process;
   op_attach_callback (Some "key1"%string) BUTTON_UP (Some (app_callback 1));
   op_pins keys_up;
   op_process;
   op_get_state (Some "key1"%string);
   op_pins key1_down].

Definition pressed_again : @World board :=
  exec (@run_ops board app later)
    (exec (drv_button_attach_callback (Some "key1"%string) BUTTON_DOWM
             (Some (app_callback 0))) ready).

End Demo.

(** ** Lookup *)

Lemma rt_strcmp_zero (cs ct : string) :
  rt_strcmp cs ct = 0%Z <-> c_str cs = c_str ct.
Proof.
  revert ct. induction cs as [|c cs IH]; intros [|d ct]; simpl.
  - tauto.
  - destruct (Z.eqb_spec (Z.of_N (N_of_ascii d)) 0); split; intros; (lia || congruence).
  - rewrite andb_comm. destruct (Z.eqb_spec (Z.of_N (N_of_ascii c)) 0); simpl;
      split; intros; (lia || congruence).
  - destruct (Z.eqb_spec (Z.of_N (N_of_ascii c)) 0) as [Hc|Hc]; simpl.
    + destruct (Z.eqb_spec (Z.of_N (N_of_ascii d)) 0); split; intros; (lia || congruence).
    + destruct (Z.eqb_spec (Z.of_N (N_of_ascii c)) (Z.of_N (N_of_ascii d))) as [Hcd|Hcd].
      * assert (c = d) as <-.
        { apply N2Z.inj in Hcd. rewrite <- (ascii_N_embedding c), Hcd.
          apply ascii_N_embedding. }
        destruct (Z.eqb_spec (Z.of_N (N_of_ascii c)) 0); [lia|].
        rewrite IH. split; [congruence | intros [= ->]; reflexivity].
      * split; [lia|].
        destruct (Z.eqb_spec (Z.of_N (N_of_ascii d)) 0); [discriminate|].
        intros [= -> _]. lia.
Qed.

Lemma c_str_nul_free (s : string) : nul_free s = true -> c_str s = s.
Proof.
  induction s as [|c s IH]; simpl; [reflexivity|].
  destruct (Z.eqb_spec (Z.of_N (N_of_ascii c)) 0); simpl; [discriminate|].
  intros Hs. rewrite IH by exact Hs. reflexivity.
Qed.

Lemma get_handle_Some (s : string) (btn : Button_ptr) :
  drv_button_get_handle (Some s) = Some btn <-> c_str s = key_name_of btn.
Proof.
  unfold drv_button_get_handle.
  repeat match goal with
  | |- context [(rt_strcmp ?a ?b =? 0)%Z] =>
      let H := fresh "H" in
      destruct (Z.eqb_spec (rt_strcmp a b) 0) as [H|H];
      rewrite rt_strcmp_zero in H; simpl in H
  end; destruct btn; simpl; split; intros; congruence.
Qed.

Lemma key_name_in (name : string) :
  name ∈ BUTTON_KEY_NAMES <-> exists btn, name = key_name_of btn.
Proof.
  unfold BUTTON_KEY_NAMES. rewrite !elem_of_cons, elem_of_nil. split.
  - intros [->|[->|[->|[->|[->|[->|[]]]]]]];
      [exists key1_btn|exists key2_btn|exists key3_btn
      |exists key4_btn|exists key5_btn|exists key6_btn]; reflexivity.
  - intros [[] ->]; simpl; tauto.
Qed.

Lemma c_str_key_name (btn : Button_ptr) : c_str (key_name_of btn) = key_name_of btn.
Proof. destruct btn; reflexivity. Qed.

Lemma get_handle_None (s : string) :
  c_str s ∉ BUTTON_KEY_NAMES -> drv_button_get_handle (Some s) = None.
Proof.
  intros Hs. destruct (drv_button_get_handle (Some s)) as [btn|] eqn:E; [|reflexivity].
  apply get_handle_Some in E. destruct Hs. apply key_name_in. eauto.
Qed.

(** C3. The lookup is injective on the configured names: two distinct
    configured names resolve to two distinct statics, and each static is
    the result for exactly one configured name. *)
Theorem drv_button_get_handle_injective :
  (forall M N : string, M ∈ BUTTON_KEY_NAMES -> N ∈ BUTTON_KEY_NAMES -> M ≠ N ->
     exists bm bn : Button_ptr,
       drv_button_get_handle (Some M) = Some bm /\
       drv_button_get_handle (Some N) = Some bn /\ bm ≠ bn) /\
  (forall btn : Button_ptr,
     exists name : string,
       name ∈ BUTTON_KEY_NAMES /\ drv_button_get_handle (Some name) = Some btn /\
       forall name' : string, name' ∈ BUTTON_KEY_NAMES ->
         drv_button_get_handle (Some name') = Some btn -> name' = name).
Proof.
  split.
  - intros M N HM HN Hne.
    apply key_name_in in HM as [bm ->]. apply key_name_in in HN as [bn ->].
    exists bm, bn. split; [|split].
    + apply get_handle_Some, c_str_key_name.
    + apply get_handle_Some, c_str_key_name.
    + intros ->. apply Hne. reflexivity.
  - intros btn. exists (key_name_of btn). split; [|split].
    + apply key_name_in. eauto.
    + apply get_handle_Some, c_str_key_name.
    + intros name' Hin Hget. apply key_name_in in Hin as [btn' ->].
      apply get_handle_Some in Hget. rewrite c_str_key_name in Hget. exact Hget.
Qed.

(** ** Callback tables, pin modes and the registry *)

Lemma lookup_set_slot (K K' : Button_Event) (cb : option Button_CallBack)
    (tbl : gmap Button_Event Button_CallBack) :
  set_slot K cb tbl !! K' = if decide (K = K') then cb else tbl !! K'.
Proof. unfold set_slot. apply lookup_partial_alter. Qed.

Lemma lookup_set_all (cb : option Button_CallBack)
    (tbl : gmap Button_Event Button_CallBack) (l : list Button_Event) (K : Button_Event) :
  foldr (fun K t => set_slot K cb t) tbl l !! K =
  if decide (K ∈ l) then cb else tbl !! K.
Proof.
  induction l as [|K0 l IH]; simpl.
  - reflexivity.
  - rewrite lookup_set_slot, IH.
    destruct (decide (K0 = K)) as [->|Hne].
    + rewrite decide_True by left. reflexivity.
    + destruct (decide (K ∈ l)) as [Hin|Hin].
      * rewrite decide_True by (right; exact Hin). reflexivity.
      * rewrite decide_False; [reflexivity|].
        rewrite elem_of_cons. intros [->|?]; congruence.
Qed.

(** ** Repeating an absorbing step *)

Section Absorb.

Context {K S : Type} (f : K -> S -> S) (Q : S -> K -> Prop).
Hypothesis Q_self : forall k s, Q (f k s) k.
Hypothesis Q_keep : forall k k' s, Q s k -> Q (f k' s) k.
Hypothesis Q_absorb : forall k s, Q s k -> f k s = s.

Lemma foldr_establishes (l : list K) (s : S) : Forall (Q (foldr f s l)) l.
Proof using Q_self Q_keep.
  induction l as [|k l IH]; simpl; constructor.
  - apply Q_self.
  - eapply Forall_impl; [exact IH|]. intros k' Hk'. apply Q_keep, Hk'.
Qed.

Lemma foldr_absorbed (l : list K) (s : S) : Forall (Q s) l -> foldr f s l = s.
Proof using Q_absorb.
  induction 1 as [|k l Hk Hl IH]; simpl; [reflexivity|].
  rewrite IH. apply Q_absorb, Hk.
Qed.

Lemma foldr_twice (l : list K) (s : S) : foldr f (foldr f s l) l = foldr f s l.
Proof using Q_self Q_keep Q_absorb. apply foldr_absorbed, foldr_establishes. Qed.

End Absorb.

Lemma apply_mode_twice (valid : Z -> bool) (mode : Z) (l : list Z) (m : gmap Z Z) :
  foldr (apply_mode valid mode) (foldr (apply_mode valid mode) m l) l =
  foldr (apply_mode valid mode) m l.
Proof.
  apply (foldr_twice (apply_mode valid mode)
           (fun m pin => valid pin = true -> m !! pin = Some mode)).
  - intros pin m0 Hv. unfold apply_mode. rewrite Hv. apply lookup_insert_eq.
  - intros pin pin' m0 Hm Hv. unfold apply_mode.
    destruct (valid pin'); [|auto].
    destruct (decide (pin' = pin)) as [->|Hne].
    + apply lookup_insert_eq.
    + rewrite lookup_insert_ne by exact Hne. auto.
  - intros pin m0 Hm. unfold apply_mode.
    destruct (valid pin) eqn:Hv; [|reflexivity]. apply insert_id. auto.
Qed.

Lemma all_buttons_NoDup : NoDup all_buttons.
Proof. compute_done. Qed.

Lemma all_buttons_elem (btn : Button_ptr) : btn ∈ all_buttons.
Proof. unfold all_buttons. destruct btn; set_solver. Qed.

Set Default Proof Using "Type".

Section Properties.

Context {P : Platform} {App : Application}.

(** ** The statics under [store] and the monad's equations *)

Lemma load_store_eq (btn : Button_ptr) (b : Button_t) (w : World) :
  load btn (store btn b w) = b.
Proof. destruct btn; reflexivity. Qed.

Lemma load_store_ne (btn btn' : Button_ptr) (b : Button_t) (w : World) :
  btn ≠ btn' -> load btn' (store btn b w) = load btn' w.
Proof. destruct btn, btn'; intros; (reflexivity || congruence). Qed.

Lemma load_set_calls (btn : Button_ptr) (c : list (Button_CallBack * Button_ptr)) (w : World) :
  load btn (set_calls c w) = load btn w.
Proof. destruct btn; reflexivity. Qed.

Lemma exec_bind {A B : Type} (m : State World A) (k : A -> State World B) (w : World) :
  exec (bind m k) w = exec (k (eval m w)) (exec m w).
Proof. unfold exec, eval, bind. destruct (m w); reflexivity. Qed.

Lemma eval_bind {A B : Type} (m : State World A) (k : A -> State World B) (w : World) :
  eval (bind m k) w = eval (k (eval m w)) (exec m w).
Proof. unfold exec, eval, bind. destruct (m w); reflexivity. Qed.

Lemma exec_ret {A : Type} (a : A) (w : World) : exec (ret a) w = w.
Proof. reflexivity. Qed.

Lemma eval_ret {A : Type} (a : A) (w : World) : eval (ret a) w = a.
Proof. reflexivity. Qed.

Lemma run_eq {A : Type} (m : State World A) (w w' : World) (a : A) :
  eval m w = a -> exec m w = w' -> m w = (a, w').
Proof. unfold eval, exec. destruct (m w); simpl; congruence. Qed.

Lemma init_eval (w : World) : eval drv_button_init w = RT_EOK.
Proof. reflexivity. Qed.

(** The callback table [Button_Attach] leaves in the entity. *)
Lemma Button_Attach_table (btn : Button_ptr) (event K : Button_Event)
    (cb : option Button_CallBack) (w : World) :
  CallBack_Function (load btn (exec (Button_Attach btn event cb) w)) !! K =
  if decide (covers event K) then cb else CallBack_Function (load btn w) !! K.
Proof.
  unfold exec, Button_Attach. cbn [snd]. rewrite load_store_eq. cbn [CallBack_Function].
  destruct (decide (covers event K)) as [Hc|Hc]; unfold covers in Hc;
    destruct (decide (event = BUTTON_ALL_RIGGER)) as [->|Hne].
  - rewrite lookup_set_all, decide_True by exact Hc. reflexivity.
  - rewrite lookup_set_slot, decide_True by congruence. reflexivity.
  - rewrite lookup_set_all, decide_False by exact Hc. reflexivity.
  - rewrite lookup_set_slot, decide_False by congruence. reflexivity.
Qed.

Lemma Button_Attach_frame (btn btn' : Button_ptr) (event : Button_Event)
    (cb : option Button_CallBack) (w : World) :
  btn ≠ btn' -> load btn' (exec (Button_Attach btn event cb) w) = load btn' w.
Proof. intros Hne. unfold exec, Button_Attach; simpl. apply load_store_ne, Hne. Qed.

Lemma init_Name (btn : Button_ptr) (w : World) :
  Name (load btn (exec drv_button_init w)) = key_name_of btn.
Proof. destruct btn; reflexivity. Qed.

(** C2. For each of the six configured names the lookup returns the address
    of the static that [drv_button_init] creates under that name; for the
    null name, and for every pointer whose C string is outside the
    configured set, it returns [RT_NULL]. *)
Theorem drv_button_get_handle_lookup :
  (forall name : string, name ∈ BUTTON_KEY_NAMES ->
     exists btn : Button_ptr,
       drv_button_get_handle (Some name) = Some btn /\
       key_name_of btn = name /\
       forall w : World, Name (load btn (exec drv_button_init w)) = name) /\
  drv_button_get_handle None = None /\
  (forall s : string, c_str s ∉ BUTTON_KEY_NAMES -> drv_button_get_handle (Some s) = None).
Proof.
  split; [|split].
  - intros name Hin. apply key_name_in in Hin as [btn ->]. exists btn.
    split; [|split].
    + apply get_handle_Some, c_str_key_name.
    + reflexivity.
    + intros w. apply init_Name.
  - reflexivity.
  - apply get_handle_None.
Qed.

(** C4. For the null name and for every name outside the configured set,
    [drv_button_get_state] and [drv_button_get_event] return
    [NONE_TRIGGER]; the call returns, and returns the state it was given. *)
Theorem drv_button_get_unknown (w : World) :
  drv_button_get_state None w = (NONE_TRIGGER, w) /\
  drv_button_get_event None w = (NONE_TRIGGER, w) /\
  (forall s : string, c_str s ∉ BUTTON_KEY_NAMES ->
     drv_button_get_state (Some s) w = (NONE_TRIGGER, w) /\
     drv_button_get_event (Some s) w = (NONE_TRIGGER, w)).
Proof.
  split; [reflexivity|]. split; [reflexivity|].
  intros s Hs. unfold drv_button_get_state, drv_button_get_event.
  rewrite (get_handle_None s Hs). split; reflexivity.
Qed.

(** C9. [drv_button_get_state] and [drv_button_get_event] change nothing,
    for known and unknown names alike: the board, the six entities with
    all their fields, the registry and the record of handler calls are the
    same after the call. *)
Theorem drv_button_get_pure (key_name : option string) (w : World) :
  exec (drv_button_get_state key_name) w = w /\
  exec (drv_button_get_event key_name) w = w.
Proof.
  unfold drv_button_get_state, drv_button_get_event.
  destruct (drv_button_get_handle key_name); split; reflexivity.
Qed.

(** C1. [drv_button_attach_callback] returns [-RT_ERROR] and leaves
    everything as it was when the name does not resolve (the null name, or a
    name outside "key1".."key6") or the callback is null. With a name that
    resolves and a callback it returns [RT_EOK] after the engine's attach on
    the resolved entity: the callback is bound for the kinds the selector
    covers, every other binding of that entity and every other entity being
    as before. *)
Theorem drv_button_attach_callback_spec
    (key_name : option string) (event : Button_Event)
    (callback : option Button_CallBack) (w : World) :
  (drv_button_get_handle key_name = None \/ callback = None ->
     drv_button_attach_callback key_name event callback w = ((- RT_ERROR)%Z, w)) /\
  (forall s : string, key_name = Some s -> c_str s ∉ BUTTON_KEY_NAMES ->
     drv_button_attach_callback key_name event callback w = ((- RT_ERROR)%Z, w)) /\
  (key_name = None ->
     drv_button_attach_callback key_name event callback w = ((- RT_ERROR)%Z, w)) /\
  (forall (btn : Button_ptr) (cb : Button_CallBack),
     drv_button_get_handle key_name = Some btn -> callback = Some cb ->
     let w' := exec (drv_button_attach_callback key_name event callback) w in
     drv_button_attach_callback key_name event callback w =
       (RT_EOK, exec (Button_Attach btn event callback) w) /\
     (forall K : Button_Event, covers event K ->
        CallBack_Function (load btn w') !! K = Some cb) /\
     (forall K : Button_Event, ¬ covers event K ->
        CallBack_Function (load btn w') !! K = CallBack_Function (load btn w) !! K) /\
     (forall btn' : Button_ptr, btn' ≠ btn -> load btn' w' = load btn' w)).
Proof.
  assert (Hfail : drv_button_get_handle key_name = None \/ callback = None ->
     drv_button_attach_callback key_name event callback w = ((- RT_ERROR)%Z, w)).
  { unfold drv_button_attach_callback.
    intros [->| ->]; [reflexivity|].
    destruct (drv_button_get_handle key_name); reflexivity. }
  split; [exact Hfail|]. split; [|split].
  - intros s -> Hs. apply Hfail. left. apply get_handle_None, Hs.
  - intros ->. apply Hfail. left. reflexivity.
  - intros btn cb Hbtn -> w'. subst w'. unfold drv_button_attach_callback.
    rewrite Hbtn, exec_bind, exec_ret.
    split; [reflexivity|]. split; [|split].
    + intros K HK.
      rewrite Button_Attach_table, decide_True by exact HK. reflexivity.
    + intros K HK.
      rewrite Button_Attach_table, decide_False by exact HK. reflexivity.
    + intros btn' Hne.
      apply Button_Attach_frame. congruence.
Qed.

(** The checks of button_basic_test (drv_button_test.c, lines 84-136) pass. *)
Example button_basic_test_checks (w : World) :
  eval drv_button_init w = RT_EOK /\
  drv_button_get_handle (Some "key1"%string) ≠ None /\
  drv_button_get_handle (Some "key2"%string) ≠ None /\
  drv_button_get_handle (Some "invalid_key"%string) = None /\
  eval (drv_button_attach_callback (Some "key1"%string) BUTTON_ALL_RIGGER
          (Some test_button_callback)) (exec drv_button_init w) = RT_EOK.
Proof. repeat split; discriminate. Qed.

(** C6. [drv_button_init] has no failing path: whatever the board does with
    the six pin configurations (a pin the board lacks is left unconfigured
    without a report), the call returns [RT_EOK]. So it returns a failure
    code in no case, in particular in none where the board accepted the
    configuration. *)
Theorem drv_button_init_returns_ok (w : World) :
  eval drv_button_init w = RT_EOK.
Proof.
  unfold drv_button_init. repeat rewrite eval_bind. apply eval_ret.
Qed.

(** The state [drv_button_init] leaves, field by field. *)
Lemma init_pin_mode (w : World) :
  pin_mode (exec drv_button_init w) =
  foldr (apply_mode (pin_valid w) PIN_MODE_INPUT_PULLUP) (pin_mode w) (reverse key_pins).
Proof. reflexivity. Qed.

Lemma init_registered (w : World) :
  registered (exec drv_button_init w) =
  {[key6_btn]} ∪ ({[key5_btn]} ∪ ({[key4_btn]} ∪ ({[key3_btn]} ∪
    ({[key2_btn]} ∪ ({[key1_btn]} ∪ registered w))))).
Proof. reflexivity. Qed.

Lemma init_buttons (w w' : World) :
  buttons (exec drv_button_init w) = buttons (exec drv_button_init w').
Proof. reflexivity. Qed.

Lemma init_table (btn : Button_ptr) (w : World) :
  CallBack_Function (load btn (exec drv_button_init w)) =
  foldr (fun K t => set_slot K (Some button_callback) t) ∅ trigger_kinds.
Proof. destruct btn; reflexivity. Qed.

Lemma World_eq (w w' : World) :
  pin_valid w = pin_valid w' -> pin_mode w = pin_mode w' ->
  pin_level w = pin_level w' -> buttons w = buttons w' ->
  registered w = registered w' -> calls w = calls w' -> w = w'.
Proof. destruct w, w'; simpl; intros; subst; reflexivity. Qed.

Lemma init_pin_valid (w : World) : pin_valid (exec drv_button_init w) = pin_valid w.
Proof. reflexivity. Qed.

Lemma init_pin_level (w : World) : pin_level (exec drv_button_init w) = pin_level w.
Proof. reflexivity. Qed.

Lemma init_calls (w : World) : calls (exec drv_button_init w) = calls w.
Proof. reflexivity. Qed.

Lemma init_twice (w : World) :
  exec drv_button_init (exec drv_button_init w) = exec drv_button_init w.
Proof.
  apply World_eq.
  - apply init_pin_valid.
  - rewrite (init_pin_mode (exec drv_button_init w)), (init_pin_mode w), init_pin_valid.
    apply apply_mode_twice.
  - apply init_pin_level.
  - apply init_buttons.
  - rewrite (init_registered (exec drv_button_init w)), (init_registered w).
    apply set_eq. intros btn. rewrite !elem_of_union, !elem_of_singleton. tauto.
  - apply init_calls.
Qed.

(** C7. [drv_button_init] can be repeated: the first and the second call
    both return [RT_EOK], and the second call leaves the state the first
    one left, in which each of the six entities is registered and has its
    name, its level source and the trigger level [PIN_LOW], and every key
    pin the board has is configured as pulled-up input. *)
Theorem drv_button_init_idempotent (w : World) :
  let w1 := exec drv_button_init w in
  eval drv_button_init w = RT_EOK /\
  drv_button_init w1 = (RT_EOK, w1) /\
  (forall btn : Button_ptr,
     btn ∈ registered w1 /\
     Name (load btn w1) = key_name_of btn /\
     Read_Button_Level (load btn w1) = Some (level_source_of btn) /\
     Button_Trigger_Level (load btn w1) = PIN_LOW) /\
  Forall (fun pin => pin_valid w pin = true ->
                     pin_mode w1 !! pin = Some PIN_MODE_INPUT_PULLUP) key_pins.
Proof.
  intros w1. split; [reflexivity|]. split; [|split].
  - apply run_eq; [apply init_eval | apply init_twice].
  - intros btn. split; [|destruct btn; repeat split].
    unfold w1. rewrite init_registered, !elem_of_union, !elem_of_singleton.
    destruct btn; repeat first [left; reflexivity | right].
  - unfold w1. rewrite init_pin_mode.
    apply Forall_reverse.
    apply (foldr_establishes (apply_mode (pin_valid w) PIN_MODE_INPUT_PULLUP)
             (fun m pin => pin_valid w pin = true -> m !! pin = Some PIN_MODE_INPUT_PULLUP)).
    + intros pin m0 Hv. unfold apply_mode. rewrite Hv. apply lookup_insert_eq.
    + intros pin pin' m0 Hm Hv. unfold apply_mode.
      destruct (pin_valid w pin'); [|auto].
      destruct (decide (pin' = pin)) as [->|Hne].
      * apply lookup_insert_eq.
      * rewrite lookup_insert_ne by exact Hne. auto.
Qed.

(** ** Teardown *)

Lemma deinit_registered (w : World) :
  registered (exec drv_button_deinit w) =
  registered w ∖ {[key1_btn]} ∖ {[key2_btn]} ∖ {[key3_btn]} ∖ {[key4_btn]}
    ∖ {[key5_btn]} ∖ {[key6_btn]}.
Proof. reflexivity. Qed.

Lemma deinit_unregisters (btn : Button_ptr) (w : World) :
  btn ∉ registered (exec drv_button_deinit w).
Proof.
  rewrite deinit_registered, !elem_of_difference, !elem_of_singleton.
  destruct btn; intuition congruence.
Qed.

Lemma deinit_eval (w : World) : eval drv_button_deinit w = RT_EOK.
Proof. reflexivity. Qed.

Lemma deinit_frame (w : World) :
  pin_valid (exec drv_button_deinit w) = pin_valid w /\
  pin_mode (exec drv_button_deinit w) = pin_mode w /\
  pin_level (exec drv_button_deinit w) = pin_level w /\
  buttons (exec drv_button_deinit w) = buttons w /\
  calls (exec drv_button_deinit w) = calls w.
Proof. repeat split. Qed.

(** C8. [drv_button_deinit] returns [RT_EOK] in every state and leaves no
    entity registered with the engine, the entities' storage, the board and
    the call record being as before; a second call returns [RT_EOK] again
    and leaves the state of the first. *)
Theorem drv_button_deinit_spec (w : World) :
  let w1 := exec drv_button_deinit w in
  eval drv_button_deinit w = RT_EOK /\
  registered w1 = ∅ /\
  (forall btn : Button_ptr, btn ∉ registered w1) /\
  buttons w1 = buttons w /\
  drv_button_deinit w1 = (RT_EOK, w1).
Proof.
  intros w1.
  assert (Hnil : registered w1 = ∅).
  { apply elem_of_equiv_empty_L. intros btn. apply deinit_unregisters. }
  split; [reflexivity|]. split; [exact Hnil|]. split; [|split].
  - intros btn. apply deinit_unregisters.
  - reflexivity.
  - apply run_eq; [apply deinit_eval|].
    destruct (deinit_frame w1) as (Hv & Hm & Hl & Hb & Hc).
    apply World_eq; try assumption.
    rewrite deinit_registered, Hnil. set_solver.
Qed.

(** ** The default handler *)

(** C10. When [drv_button_init] returns, each of the six entities has
    [button_callback] bound to every kind the engine can report; a later
    [drv_button_attach_callback] on a resolved name binds the new callback
    for the kinds its selector covers and leaves [button_callback] on the
    others. *)
Theorem drv_button_init_default_callback (w : World) :
  let w1 := exec drv_button_init w in
  (forall (btn : Button_ptr) (K : Button_Event), K ∈ trigger_kinds ->
     CallBack_Function (load btn w1) !! K = Some button_callback) /\
  (forall (key_name : option string) (btn : Button_ptr) (event : Button_Event)
          (cb : Button_CallBack),
     drv_button_get_handle key_name = Some btn ->
     let w2 := exec (drv_button_attach_callback key_name event (Some cb)) w1 in
     eval (drv_button_attach_callback key_name event (Some cb)) w1 = RT_EOK /\
     forall K : Button_Event, K ∈ trigger_kinds ->
       CallBack_Function (load btn w2) !! K =
       if decide (covers event K) then Some cb else Some button_callback).
Proof.
  intros w1.
  assert (Hdef : forall btn K, K ∈ trigger_kinds ->
            CallBack_Function (load btn w1) !! K = Some button_callback).
  { intros btn K HK. unfold w1.
    rewrite init_table, lookup_set_all, decide_True by exact HK. reflexivity. }
  split; [exact Hdef|].
  intros key_name btn event cb Hbtn w2. subst w2.
  unfold drv_button_attach_callback. rewrite Hbtn.
  rewrite exec_bind, eval_bind, exec_ret, eval_ret. split; [reflexivity|].
  intros K HK. rewrite Button_Attach_table.
  destruct (decide (covers event K)); [reflexivity|]. apply Hdef, HK.
Qed.

(** ** Polling *)

Lemma to_rt_uint8_t_range (z : Z) : (0 <= to_rt_uint8_t z < 256)%Z.
Proof. unfold to_rt_uint8_t. apply Z.mod_pos_bound. reflexivity. Qed.

Lemma read_level_run (f : Level_Source) (w : World) :
  read_level f w = (eval (read_level f) w, w).
Proof. destruct f; reflexivity. Qed.

(** A level source gives a value of [rt_uint8_t]. *)
Lemma read_level_uint8 (f : Level_Source) (w : World) :
  (0 <= eval (read_level f) w < 256)%Z.
Proof. destruct f; apply to_rt_uint8_t_range. Qed.

(** The engine's writes to an entity leave its callback table. *)
Lemma table_store (btn a : Button_ptr) (name : string) (f : option Level_Source)
    (level : Z) (st ev : Button_Event) (t : Timing) (w : World) :
  CallBack_Function
    (load btn (store a (mkButton name f level (CallBack_Function (load a w)) st ev t) w))
  = CallBack_Function (load btn w).
Proof.
  destruct (decide (a = btn)) as [->|Hne].
  - rewrite load_store_eq. reflexivity.
  - rewrite load_store_ne by exact Hne. reflexivity.
Qed.

Lemma handler_body_keeps (btn btn' : Button_ptr) (K : Button_Event)
    (cb : Button_CallBack) (w : World) :
  handlers_keep btn K ->
  CallBack_Function (load btn (exec (handler_body cb btn') w)) !! K
  = CallBack_Function (load btn w) !! K.
Proof. intros Hkeep. destruct cb as [| |id]; [reflexivity|reflexivity|apply Hkeep]. Qed.

Lemma handler_body_event (btn btn' : Button_ptr) (cb : Button_CallBack) (w : World) :
  handlers_leave_event btn ->
  Button_Trigger_Event (load btn (exec (handler_body cb btn') w))
  = Button_Trigger_Event (load btn w).
Proof. intros Hev. destruct cb as [| |id]; [reflexivity|reflexivity|apply Hev]. Qed.

Lemma dispatched_self (btn : Button_ptr) (w : World) :
  filter (fun c => c.2 = btn) (dispatched btn w) = dispatched btn w.
Proof.
  unfold dispatched. destruct (reports btn w) as [K|]; [|reflexivity].
  destruct (CallBack_Function (load btn w) !! K); [|reflexivity].
  rewrite filter_cons_True by reflexivity. reflexivity.
Qed.

Lemma dispatched_other (btn btn' : Button_ptr) (w : World) :
  btn' ≠ btn -> filter (fun c => c.2 = btn) (dispatched btn' w) = [].
Proof.
  intros Hne. unfold dispatched. destruct (reports btn' w) as [K|]; [|reflexivity].
  destruct (CallBack_Function (load btn' w) !! K); [|reflexivity].
  rewrite filter_cons_False by exact Hne. reflexivity.
Qed.

(** One tick of one entity, whatever the handler it calls does: the call
    the engine makes, the callback tables, and the cached events. *)
Lemma cycle_run (a : Button_ptr) (w : World) :
  let w' := exec (Button_Cycle_Process a) w in
  calls w' = calls w ++ dispatched a w /\
  (forall btn K, handlers_keep btn K ->
     CallBack_Function (load btn w') !! K = CallBack_Function (load btn w) !! K) /\
  (forall btn, btn ≠ a -> handlers_leave_event btn ->
     Button_Trigger_Event (load btn w') = Button_Trigger_Event (load btn w)) /\
  (forall K, reports a w = Some K ->
     (handlers_leave_event a \/ CallBack_Function (load a w) !! K = None) ->
     Button_Trigger_Event (load a w') = K).
Proof.
  unfold exec, Button_Cycle_Process, dispatched, reports.
  destruct (Read_Button_Level (load a w)) as [f|] eqn:Hf; cbn zeta.
  - unfold bind. rewrite read_level_run.
    destruct (detect (Timing_State (load a w)) (eval (read_level f) w)
                (Button_Trigger_Level (load a w))) as [[t st] out].
    cbn [fst snd].
    destruct (observed out) as [K|].
    + destruct (CallBack_Function (load a w) !! K) as [cb|] eqn:Hcb; cbn [snd].
      * unfold invoke; cbn [snd]. split; [reflexivity|]. split; [|split].
        -- intros btn K' Hkeep. rewrite load_set_calls, handler_body_keeps by exact Hkeep.
           rewrite table_store. reflexivity.
        -- intros btn Hne Hev. rewrite load_set_calls, handler_body_event by exact Hev.
           rewrite load_store_ne by congruence. reflexivity.
        -- intros K' [= <-] [Hev|?]; [|congruence].
           rewrite load_set_calls, handler_body_event by exact Hev.
           rewrite load_store_eq. reflexivity.
      * unfold ret; cbn [snd]. rewrite app_nil_r. split; [reflexivity|]. split; [|split].
        -- intros btn K' _. rewrite table_store. reflexivity.
        -- intros btn Hne _. rewrite load_store_ne by congruence. reflexivity.
        -- intros K' [= <-] _. rewrite load_store_eq. reflexivity.
    + cbn [snd]. rewrite app_nil_r. split; [reflexivity|]. split; [|split].
      * intros btn K' _. rewrite table_store. reflexivity.
      * intros btn Hne _. rewrite load_store_ne by congruence. reflexivity.
      * discriminate.
  - unfold ret; cbn [snd]. rewrite app_nil_r. repeat split. discriminate.
Qed.

Lemma process_list_app (l1 l2 : list Button_ptr) (w : World) :
  exec (process_list (l1 ++ l2)) w = exec (process_list l2) (exec (process_list l1) w).
Proof.
  revert w. induction l1 as [|a l1 IH]; intros w; [reflexivity|].
  cbn [app process_list]. rewrite !exec_bind. apply IH.
Qed.

(** A poll over any list of entities keeps a binding that the handlers
    keep. *)
Lemma process_list_keeps (btn : Button_ptr) (K : Button_Event)
    (l : list Button_ptr) (w : World) :
  handlers_keep btn K ->
  CallBack_Function (load btn (exec (process_list l) w)) !! K
  = CallBack_Function (load btn w) !! K.
Proof.
  intros Hkeep. revert w. induction l as [|a l IH]; intros w; [reflexivity|].
  cbn [process_list]. rewrite exec_bind, IH.
  destruct (cycle_run a w) as (_ & Htbl & _). apply Htbl, Hkeep.
Qed.

(** A poll over a list without [btn] makes no call with [btn], and leaves
    its cached event when the handlers do. *)
Lemma process_list_notin (btn : Button_ptr) (l : list Button_ptr) (w : World) :
  btn ∉ l ->
  let w' := exec (process_list l) w in
  (exists new, calls w' = calls w ++ new /\ filter (fun c => c.2 = btn) new = []) /\
  (handlers_leave_event btn ->
   Button_Trigger_Event (load btn w') = Button_Trigger_Event (load btn w)).
Proof.
  revert w. induction l as [|a l IH]; intros w Hnin; cbn zeta.
  - split; [|reflexivity]. exists []. rewrite app_nil_r. split; reflexivity.
  - apply not_elem_of_cons in Hnin as [Hne Hnin].
    cbn [process_list]. rewrite exec_bind.
    destruct (cycle_run a w) as (Hcalls & _ & Hother & _).
    destruct (IH (exec (Button_Cycle_Process a) w) Hnin) as ((new & Hcalls' & Hnew) & Hev').
    split.
    + exists (dispatched a w ++ new). split.
      * rewrite Hcalls', Hcalls, app_assoc. reflexivity.
      * rewrite filter_app, Hnew, dispatched_other by congruence. reflexivity.
    + intros Hev. rewrite Hev' by exact Hev. apply Hother; [exact Hne | exact Hev].
Qed.

(** In a duplicate-free list, [btn] stands between the entities ticked
    before it and the rest. *)
Lemma ticked_before_split (btn : Button_ptr) (l : list Button_ptr) :
  NoDup l -> btn ∈ l ->
  exists rest : list Button_ptr,
    l = (ticked_before btn l ++ btn :: rest)%list /\
    (btn ∉ ticked_before btn l) /\ (btn ∉ rest).
Proof.
  induction l as [|a l IH]; intros Hnd Hin.
  - apply elem_of_nil in Hin as [].
  - apply NoDup_cons in Hnd as [Ha Hnd]. cbn [ticked_before].
    destruct (decide (a = btn)) as [->|Hne].
    + exists l. split; [reflexivity|]. split; [apply not_elem_of_nil | exact Ha].
    + apply elem_of_cons in Hin as [?|Hin]; [congruence|].
      destruct (IH Hnd Hin) as (rest & Hl & Hbefore & Hrest).
      exists rest. split; [|split].
      * cbn [app]. rewrite <- Hl. reflexivity.
      * apply not_elem_of_cons. split; [congruence | exact Hbefore].
      * exact Hrest.
Qed.

Lemma emitted_kind (btn : Button_ptr) (K : Button_Event) (w : World) :
  engine_emits btn w = Some K -> K ∈ trigger_kinds.
Proof.
  unfold engine_emits, reports. destruct (decide (btn ∈ registered w)); [|discriminate].
  destruct (Read_Button_Level (load btn (tick_state btn w))); [|discriminate].
  destruct (detect _ _ _) as [[t st] [K'|]]; cbn [snd observed]; [|discriminate].
  destruct (decide (K' ∈ trigger_kinds)); [|discriminate]. congruence.
Qed.

(** The poll entry point, for an entity the engine emits a kind on: the
    handlers called with the entity during the whole poll, and the event
    cached in it, after its tick and at the end of the poll. *)
Lemma process_emits (btn : Button_ptr) (K : Button_Event) (w : World) :
  handlers_keep btn K ->
  engine_emits btn w = Some K ->
  let w' := exec drv_button_process w in
  handlers_run btn w w' =
    match CallBack_Function (load btn w) !! K with
    | Some cb => [cb]
    | None => []
    end /\
  (CallBack_Function (load btn w) !! K = None ->
   Button_Trigger_Event (load btn (exec (Button_Cycle_Process btn) (tick_state btn w))) = K) /\
  (handlers_leave_event btn -> Button_Trigger_Event (load btn w') = K).
Proof.
  intros Hkeep Hem. unfold engine_emits in Hem.
  destruct (decide (btn ∈ registered w)) as [Hin|]; [|discriminate].
  assert (Hnd : NoDup (registry_order w)) by apply NoDup_filter, all_buttons_NoDup.
  assert (Hin' : btn ∈ registry_order w)
    by (apply list_elem_of_filter; split; [exact Hin | apply all_buttons_elem]).
  destruct (ticked_before_split btn (registry_order w) Hnd Hin')
    as (rest & Hsplit & Hbefore & Hrest).
  assert (Htbl : CallBack_Function (load btn (tick_state btn w)) !! K
                 = CallBack_Function (load btn w) !! K)
    by (apply process_list_keeps, Hkeep).
  destruct (process_list_notin btn _ w Hbefore) as ((new1 & Hcalls1 & Hnew1) & _).
  fold (tick_state btn w) in Hcalls1.
  destruct (cycle_run btn (tick_state btn w)) as (Hcalls2 & _ & _ & Hev2).
  destruct (process_list_notin btn rest (exec (Button_Cycle_Process btn) (tick_state btn w))
              Hrest) as ((new3 & Hcalls3 & Hnew3) & Hev3).
  assert (Hpoll : exec drv_button_process w
                  = exec (process_list rest)
                      (exec (Button_Cycle_Process btn) (tick_state btn w))).
  { change (exec drv_button_process w) with (exec (process_list (registry_order w)) w).
    rewrite Hsplit at 1. rewrite process_list_app. cbn [process_list].
    rewrite exec_bind. reflexivity. }
  cbn zeta. rewrite Hpoll. split; [|split].
  - unfold handlers_run. rewrite Hcalls3, Hcalls2, Hcalls1, <- !app_assoc, drop_app_length.
    rewrite !filter_app, Hnew1, Hnew3, dispatched_self, app_nil_r. cbn [app].
    unfold dispatched. rewrite Hem, Htbl.
    destruct (CallBack_Function (load btn w) !! K); reflexivity.
  - intros Hnone. apply Hev2; [exact Hem|]. right. rewrite Htbl. exact Hnone.
  - intros Hev. rewrite Hev3 by exact Hev. apply Hev2; [exact Hem|]. left. exact Hev.
Qed.

(** One call of the interface that does not bind the slot anew keeps the
    binding. *)
Lemma run_op_keeps (btn : Button_ptr) (K : Button_Event) (op : button_op) (w : World) :
  handlers_keep btn K -> rebinds btn K op = false ->
  CallBack_Function (load btn (exec (run_op op) w)) !! K
  = CallBack_Function (load btn w) !! K.
Proof.
  intros Hkeep Hop. destruct op as [| | |key_name|key_name|key_name event callback|level].
  - discriminate.
  - reflexivity.
  - apply process_list_keeps, Hkeep.
  - cbn [run_op]. unfold drv_button_get_state.
    destruct (drv_button_get_handle key_name); reflexivity.
  - cbn [run_op]. unfold drv_button_get_event.
    destruct (drv_button_get_handle key_name); reflexivity.
  - cbn [run_op]. rewrite exec_bind, exec_ret. unfold drv_button_attach_callback.
    destruct (drv_button_get_handle key_name) as [btn'|] eqn:Hbtn; [|reflexivity].
    destruct callback as [cb|]; [|reflexivity].
    rewrite exec_bind, exec_ret. cbn [rebinds] in Hop. rewrite Hbtn in Hop.
    apply bool_decide_eq_false in Hop.
    destruct (decide (btn' = btn)) as [->|Hne].
    + rewrite Button_Attach_table, decide_False; [reflexivity|]. tauto.
    + rewrite Button_Attach_frame by exact Hne. reflexivity.
  - destruct btn; reflexivity.
Qed.

Lemma run_ops_keeps (btn : Button_ptr) (K : Button_Event) (ops : list button_op) (w : World) :
  handlers_keep btn K -> Forall (fun op => rebinds btn K op = false) ops ->
  CallBack_Function (load btn (exec (run_ops ops) w)) !! K
  = CallBack_Function (load btn w) !! K.
Proof.
  intros Hkeep Hops. revert w. induction Hops as [|op ops Hop _ IH]; intros w; [reflexivity|].
  cbn [run_ops]. rewrite exec_bind, IH. apply run_op_keeps; assumption.
Qed.


End Properties.

(** ** The statements at concrete inputs *)

#[local] Existing Instance Demo.board.
#[local] Existing Instance Demo.app.

Lemma key9_unknown : c_str "key9" ∉ BUTTON_KEY_NAMES.
Proof. compute_done. Qed.

Lemma drv_button_attach_callback_spec_witness :
  drv_button_attach_callback (Some "key9"%string) BUTTON_DOWM (Some (app_callback 0)) Demo.ready
    = ((- RT_ERROR)%Z, Demo.ready) /\
  drv_button_attach_callback (Some "key1"%string) BUTTON_DOWM None Demo.ready
    = ((- RT_ERROR)%Z, Demo.ready) /\
  drv_button_attach_callback None BUTTON_DOWM (Some (app_callback 0)) Demo.ready
    = ((- RT_ERROR)%Z, Demo.ready) /\
  eval (drv_button_attach_callback (Some "key1"%string) BUTTON_DOWM (Some (app_callback 0)))
    Demo.ready = RT_EOK /\
  CallBack_Function
    (load key1_btn
       (exec (drv_button_attach_callback (Some "key1"%string) BUTTON_DOWM
                (Some (app_callback 0))) Demo.ready)) !! BUTTON_DOWM = Some (app_callback 0).
Proof.
  split; [|split; [|split]].
  - destruct (drv_button_attach_callback_spec (Some "key9"%string) BUTTON_DOWM
             (Some (app_callback 0)) Demo.ready) as (_ & Hunknown & _ & _).
    apply (Hunknown "key9"%string); [reflexivity | exact key9_unknown].
  - destruct (drv_button_attach_callback_spec (Some "key1"%string) BUTTON_DOWM
             None Demo.ready) as (Hfail & _).
    apply Hfail. right. reflexivity.
  - destruct (drv_button_attach_callback_spec None BUTTON_DOWM
             (Some (app_callback 0)) Demo.ready) as (_ & _ & Hnull & _).
    apply Hnull. reflexivity.
  - destruct (drv_button_attach_callback_spec (Some "key1"%string) BUTTON_DOWM
             (Some (app_callback 0)) Demo.ready) as (_ & _ & _ & Hok).
    destruct (Hok key1_btn (app_callback 0)) as (Hret & Hbound & _); [reflexivity..|].
    split; [unfold eval; rewrite Hret; reflexivity|]. apply Hbound. reflexivity.
Defined.

Lemma drv_button_get_handle_lookup_witness :
  (exists btn : Button_ptr,
     drv_button_get_handle (Some "key3"%string) = Some btn /\
     key_name_of btn = "key3"%string /\
     forall w : World, Name (load btn (exec drv_button_init w)) = "key3"%string) /\
  drv_button_get_handle (Some "key9"%string) = None.
Proof.
  destruct (drv_button_get_handle_lookup (P := Demo.board)) as (Hin & _ & Hout).
  split.
  - apply Hin. compute_done.
  - apply Hout. exact key9_unknown.
Defined.

Lemma drv_button_get_handle_injective_witness :
  (exists bm bn : Button_ptr,
     drv_button_get_handle (Some "key1"%string) = Some bm /\
     drv_button_get_handle (Some "key6"%string) = Some bn /\ bm ≠ bn) /\
  (exists name : string,
     name ∈ BUTTON_KEY_NAMES /\ drv_button_get_handle (Some name) = Some key4_btn /\
     forall name' : string, name' ∈ BUTTON_KEY_NAMES ->
       drv_button_get_handle (Some name') = Some key4_btn -> name' = name).
Proof.
  destruct drv_button_get_handle_injective as [Hdistinct Hunique]. split.
  - apply Hdistinct; compute_done.
  - apply Hunique.
Defined.

Lemma drv_button_get_unknown_witness :
  drv_button_get_state (Some "key9"%string) Demo.ready = (NONE_TRIGGER, Demo.ready) /\
  drv_button_get_event (Some "key9"%string) Demo.ready = (NONE_TRIGGER, Demo.ready).
Proof.
  apply (drv_button_get_unknown Demo.ready). exact key9_unknown.
Defined.

Lemma drv_button_init_default_callback_witness :
  CallBack_Function (load key2_btn Demo.ready) !! BUTTON_LONG = Some button_callback /\
  CallBack_Function
    (load key2_btn
       (exec (drv_button_attach_callback (Some "key2"%string) BUTTON_DOUBLE
                (Some test_button_callback)) Demo.ready)) !! BUTTON_DOUBLE
    = Some test_button_callback /\
  CallBack_Function
    (load key2_btn
       (exec (drv_button_attach_callback (Some "key2"%string) BUTTON_DOUBLE
                (Some test_button_callback)) Demo.ready)) !! BUTTON_LONG
    = Some button_callback.
Proof.
  destruct (drv_button_init_default_callback Demo.power_on) as [Hdef Hlater].
  split; [apply Hdef; compute_done|].
  destruct (Hlater (Some "key2"%string) key2_btn BUTTON_DOUBLE test_button_callback)
    as [_ Htbl]; [reflexivity|].
  split.
  - apply (Htbl BUTTON_DOUBLE). compute_done.
  - apply (Htbl BUTTON_LONG). compute_done.
Defined.

Lemma demo_handlers_keep (btn : Button_ptr) (K : Button_Event) :
  btn ≠ key2_btn -> handlers_keep (App := Demo.app) btn K.
Proof.
  intros Hne id btn' w. destruct id as [|[|id]]; [reflexivity| |reflexivity].
  destruct btn; (reflexivity || congruence).
Qed.

Lemma demo_handlers_leave_event (btn : Button_ptr) :
  handlers_leave_event (App := Demo.app) btn.
Proof.
  intros id btn' w. destruct id as [|[|id]]; [reflexivity| |reflexivity].
  destruct btn; reflexivity.
Qed.


(** * RGB LED driver (drivers/drv_led.c) and the test commands *)

(** ** Equations of the state monad, for any state *)

Lemma st_exec_bind {S A B : Type} (m : State S A) (k : A -> State S B) (s : S) :
  exec (bind m k) s = exec (k (eval m s)) (exec m s).
Proof. unfold exec, eval, bind. destruct (m s); reflexivity. Qed.

Lemma st_eval_bind {S A B : Type} (m : State S A) (k : A -> State S B) (s : S) :
  eval (bind m k) s = eval (k (eval m s)) (exec m s).
Proof. unfold exec, eval, bind. destruct (m s); reflexivity. Qed.

Lemma st_run {S A : Type} (m : State S A) (s : S) : m s = (eval m s, exec m s).
Proof. unfold eval, exec. destruct (m s); reflexivity. Qed.

Module Led.

(** ** Types and constants (drv_led.h, lines 37-88; rtdef.h, pin.h) *)

Definition RT_EINVAL : rt_err_t := 10%Z.
Definition PIN_MODE_OUTPUT_OD : Z := 4%Z.

(** [led_channel_t] and [led_state_t] are enumerations without negative
    enumerators: a value of the type is an unsigned number, which need not
    be one of the enumerators. *)
Definition led_channel_t := N.
Definition LED_RED : led_channel_t := 0%N.
Definition LED_GREEN : led_channel_t := 1%N.
Definition LED_BLUE : led_channel_t := 2%N.
Definition LED_CHANNEL_MAX : led_channel_t := 3%N.

Definition led_state_t := N.
Definition LED_OFF : led_state_t := 0%N.
Definition LED_ON : led_state_t := 1%N.

(** The components are [rt_uint8_t]. *)
Record rgb_color_t : Set := mk_rgb {
  red : N;
  green : N;
  blue : N
}.

Definition RGB_COLOR_BLACK : rgb_color_t := mk_rgb 0 0 0.
Definition RGB_COLOR_WHITE : rgb_color_t := mk_rgb 255 255 255.
Definition RGB_COLOR_RED : rgb_color_t := mk_rgb 255 0 0.
Definition RGB_COLOR_GREEN : rgb_color_t := mk_rgb 0 255 0.
Definition RGB_COLOR_BLUE : rgb_color_t := mk_rgb 0 0 255.
Definition RGB_COLOR_YELLOW : rgb_color_t := mk_rgb 255 255 0.
Definition RGB_COLOR_MAGENTA : rgb_color_t := mk_rgb 255 0 255.
Definition RGB_COLOR_CYAN : rgb_color_t := mk_rgb 0 255 255.
Definition RGB_COLOR_ORANGE : rgb_color_t := mk_rgb 255 165 0.
Definition RGB_COLOR_PURPLE : rgb_color_t := mk_rgb 128 0 128.
Definition RGB_COLOR_PINK : rgb_color_t := mk_rgb 255 192 203.

(** LED_ON_LEVEL and LED_OFF_LEVEL (drv_led.c, lines 39-40): the LEDs are
    wired common-anode, a low level lights one. *)
Definition LED_ON_LEVEL : Z := PIN_LOW.
Definition LED_OFF_LEVEL : Z := PIN_HIGH.

(** ** State: the board's pins and the driver's statics (lines 52-66) *)

Record Leds : Type := mkLeds {
  gpio_mode : gmap Z Z;
  gpio_out : gmap Z Z;
  led_states : list led_state_t;
  current_rgb_color : rgb_color_t
}.

Definition set_gpio_mode (m : gmap Z Z) (w : Leds) : Leds :=
  mkLeds m (gpio_out w) (led_states w) (current_rgb_color w).

Definition set_gpio_out (m : gmap Z Z) (w : Leds) : Leds :=
  mkLeds (gpio_mode w) m (led_states w) (current_rgb_color w).

Definition set_led_states (l : list led_state_t) (w : Leds) : Leds :=
  mkLeds (gpio_mode w) (gpio_out w) l (current_rgb_color w).

Definition set_current_rgb_color (c : rgb_color_t) (w : Leds) : Leds :=
  mkLeds (gpio_mode w) (gpio_out w) (led_states w) c.

(** The statics as their initialisers leave them, on a board whose pins
    were never configured or written. *)
Definition boot : Leds :=
  mkLeds ∅ ∅ [LED_OFF; LED_OFF; LED_OFF] (mk_rgb 0 0 0).

(** Modelled from the spec: raw pin configuration and level output of the
    board-support layer ([rt_pin_mode] and [rt_pin_write] of pin.h, not among
    the driver's files): the board keeps the mode and the output level last
    given to each pin. *)
Definition rt_pin_mode (pin mode : Z) : State Leds unit := fun w =>
  (tt, set_gpio_mode (<[pin := mode]> (gpio_mode w)) w).

Definition rt_pin_write (pin value : Z) : State Leds unit := fun w =>
  (tt, set_gpio_out (<[pin := value]> (gpio_out w)) w).

(** Assignments to the statics. *)
Definition store_led_state (i : nat) (state : led_state_t) : State Leds unit := fun w =>
  (tt, set_led_states (<[i := state]> (led_states w)) w).

Definition store_red (v : N) : State Leds unit := fun w =>
  (tt, set_current_rgb_color
         (mk_rgb v (green (current_rgb_color w)) (blue (current_rgb_color w))) w).

Definition store_green (v : N) : State Leds unit := fun w =>
  (tt, set_current_rgb_color
         (mk_rgb (red (current_rgb_color w)) v (blue (current_rgb_color w))) w).

Definition store_blue (v : N) : State Leds unit := fun w =>
  (tt, set_current_rgb_color
         (mk_rgb (red (current_rgb_color w)) (green (current_rgb_color w)) v) w).

Definition store_rgb_color (c : rgb_color_t) : State Leds unit := fun w =>
  (tt, set_current_rgb_color c w).

(** A counted loop: [n] rounds of [body], the index starting at [i]. *)
Fixpoint for_loop {St : Type} (n i : nat) (body : nat -> State St unit) : State St unit :=
  match n with
  | O => ret tt
  | S n' => body i ;; for_loop n' (S i) body
  end.

Section LedDriver.

Context {P : Platform}.

(** ** The driver (drv_led.c) *)

(** lines 34-36 *)
Definition LED_RED_PIN : Z := GET_PIN GPIOA 6.
Definition LED_GREEN_PIN : Z := GET_PIN GPIOA 7.
Definition LED_BLUE_PIN : Z := GET_PIN GPIOA 5.

(** lines 52-56 *)
Definition led_pins : list Z := [LED_RED_PIN; LED_GREEN_PIN; LED_BLUE_PIN].

(** lines 85-88 *)
Definition led_channel_is_valid (channel : led_channel_t) : bool :=
  (channel <? LED_CHANNEL_MAX)%N.

(** lines 96-106 *)
Definition led_set_hardware_state (channel : led_channel_t) (state : led_state_t)
    : State Leds unit :=
  if negb (led_channel_is_valid channel) then ret tt
  else
    let pin_level := if (state =? LED_ON)%N then LED_ON_LEVEL else LED_OFF_LEVEL in
    rt_pin_write (led_pins !!! N.to_nat channel) pin_level ;;
    store_led_state (N.to_nat channel) state.

(** lines 233-252; the argument is the pointed color, [None] for a null
    pointer. *)
Definition drv_led_set_rgb_color (color : option rgb_color_t) : State Leds rt_err_t :=
  match color with
  | None => ret (- RT_EINVAL)%Z
  | Some color =>
      led_set_hardware_state LED_RED (if (0 <? red color)%N then LED_ON else LED_OFF) ;;
      led_set_hardware_state LED_GREEN (if (0 <? green color)%N then LED_ON else LED_OFF) ;;
      led_set_hardware_state LED_BLUE (if (0 <? blue color)%N then LED_ON else LED_OFF) ;;
      store_rgb_color color ;;
      ret RT_EOK
  end.

(** lines 281-285 *)
Definition drv_led_all_off : State Leds rt_err_t :=
  let black_color := RGB_COLOR_BLACK in
  drv_led_set_rgb_color (Some black_color).

(** lines 293-297 *)
Definition drv_led_all_on : State Leds rt_err_t :=
  let white_color := RGB_COLOR_WHITE in
  drv_led_set_rgb_color (Some white_color).

(** lines 124-146 *)
Definition drv_led_init : State Leds rt_err_t :=
  for_loop (N.to_nat LED_CHANNEL_MAX) 0
    (fun i =>
       rt_pin_mode (led_pins !!! i) PIN_MODE_OUTPUT_OD ;;
       rt_pin_write (led_pins !!! i) LED_OFF_LEVEL ;;
       store_led_state i LED_OFF) ;;
  store_red 0 ;;
  store_green 0 ;;
  store_blue 0 ;;
  ret RT_EOK.

(** lines 154-164 *)
Definition drv_led_deinit : State Leds rt_err_t :=
  drv_led_all_off ;;
  ret RT_EOK.

(** lines 175-204 *)
Definition drv_led_set_state (channel : led_channel_t) (state : led_state_t)
    : State Leds rt_err_t :=
  if negb (led_channel_is_valid channel) then ret (- RT_EINVAL)%Z
  else
    led_set_hardware_state channel state ;;
    (if (channel =? LED_RED)%N then store_red (if (state =? LED_ON)%N then 255 else 0)
     else if (channel =? LED_GREEN)%N then store_green (if (state =? LED_ON)%N then 255 else 0)
     else if (channel =? LED_BLUE)%N then store_blue (if (state =? LED_ON)%N then 255 else 0)
     else ret tt) ;;
    ret RT_EOK.

(** lines 214-223 *)
Definition drv_led_get_state (channel : led_channel_t) : State Leds led_state_t :=
  if negb (led_channel_is_valid channel) then ret LED_OFF
  else fun w => (led_states w !!! N.to_nat channel, w).

(** lines 262-273; the argument is what the pointer points to before the
    call ([None] for a null pointer), the second result what it points to
    after it. *)
Definition drv_led_get_rgb_color (color : option rgb_color_t)
    : State Leds (rt_err_t * option rgb_color_t) :=
  match color with
  | None => ret ((- RT_EINVAL)%Z, None)
  | Some _ => fun w => ((RT_EOK, Some (current_rgb_color w)), w)
  end.

(** lines 314-378 *)
Definition drv_led_set_red : State Leds rt_err_t :=
  let red_color := RGB_COLOR_RED in drv_led_set_rgb_color (Some red_color).

Definition drv_led_set_green : State Leds rt_err_t :=
  let green_color := RGB_COLOR_GREEN in drv_led_set_rgb_color (Some green_color).

Definition drv_led_set_blue : State Leds rt_err_t :=
  let blue_color := RGB_COLOR_BLUE in drv_led_set_rgb_color (Some blue_color).

Definition drv_led_set_yellow : State Leds rt_err_t :=
  let yellow_color := RGB_COLOR_YELLOW in drv_led_set_rgb_color (Some yellow_color).

Definition drv_led_set_magenta : State Leds rt_err_t :=
  let magenta_color := RGB_COLOR_MAGENTA in drv_led_set_rgb_color (Some magenta_color).

Definition drv_led_set_cyan : State Leds rt_err_t :=
  let cyan_color := RGB_COLOR_CYAN in drv_led_set_rgb_color (Some cyan_color).

(** ** The tests and shell commands (drv_led_test.c) *)

(** Delays and console output are left out: they touch neither the pins nor
    the driver's statics. *)

(** lines 34-113; [current_color] is the local the test passes to
    [drv_led_get_rgb_color] without initialising it. *)
Definition led_basic_test (current_color : rgb_color_t) : State Leds rt_err_t :=
  result <- drv_led_init ;;
  if negb (result =? RT_EOK)%Z then ret (- RT_ERROR)%Z else
  drv_led_set_state LED_RED LED_ON ;;
  state <- drv_led_get_state LED_RED ;;
  if negb (state =? LED_ON)%N then ret (- RT_ERROR)%Z else
  drv_led_set_state LED_RED LED_OFF ;;
  drv_led_set_state LED_GREEN LED_ON ;;
  state <- drv_led_get_state LED_GREEN ;;
  if negb (state =? LED_ON)%N then ret (- RT_ERROR)%Z else
  drv_led_set_state LED_GREEN LED_OFF ;;
  drv_led_set_state LED_BLUE LED_ON ;;
  state <- drv_led_get_state LED_BLUE ;;
  if negb (state =? LED_ON)%N then ret (- RT_ERROR)%Z else
  drv_led_set_state LED_BLUE LED_OFF ;;
  let test_color := mk_rgb 255 0 0 in
  result <- drv_led_set_rgb_color (Some test_color) ;;
  if negb (result =? RT_EOK)%Z then ret (- RT_ERROR)%Z else
  got <- drv_led_get_rgb_color (Some current_color) ;;
  let result := got.1 in
  let current_color := default current_color got.2 in
  if negb (result =? RT_EOK)%Z
     || negb (red current_color =? 255)%N
     || negb (green current_color =? 0)%N
     || negb (blue current_color =? 0)%N
  then ret (- RT_ERROR)%Z else
  drv_led_all_off ;;
  ret RT_EOK.

(** lines 122-164 *)
Definition led_color_preset_test : State Leds rt_err_t :=
  drv_led_set_red ;;
  drv_led_set_green ;;
  drv_led_set_blue ;;
  drv_led_set_yellow ;;
  drv_led_set_magenta ;;
  drv_led_set_cyan ;;
  drv_led_all_on ;;
  drv_led_all_off ;;
  ret RT_EOK.

(** lines 173-202 *)
Definition drv_led_full_test (current_color : rgb_color_t) : State Leds rt_err_t :=
  result <- led_basic_test current_color ;;
  if negb (result =? RT_EOK)%Z then ret (- RT_ERROR)%Z else
  result <- led_color_preset_test ;;
  if negb (result =? RT_EOK)%Z then ret (- RT_ERROR)%Z else
  ret RT_EOK.

(** lines 252-300; [argv] holds the [argc] words of the command line, the
    command's own name first. *)
Definition led_ctrl (argv : list string) : State Leds unit :=
  let argc := List.length argv in
  if (argc <? 3)%nat then ret tt
  else
    let channel := argv !!! 1%nat in
    let state := argv !!! 2%nat in
    let led_state := if (rt_strcmp state "on" =? 0)%Z then LED_ON else LED_OFF in
    if (rt_strcmp channel "red" =? 0)%Z then
      drv_led_set_state LED_RED led_state ;; ret tt
    else if (rt_strcmp channel "green" =? 0)%Z then
      drv_led_set_state LED_GREEN led_state ;; ret tt
    else if (rt_strcmp channel "blue" =? 0)%Z then
      drv_led_set_state LED_BLUE led_state ;; ret tt
    else if (rt_strcmp channel "all" =? 0)%Z then
      if (led_state =? LED_ON)%N then drv_led_all_on ;; ret tt
      else drv_led_all_off ;; ret tt
    else ret tt.

(** lines 318-374 *)
Definition led_color (argv : list string) : State Leds unit :=
  let argc := List.length argv in
  if (argc <? 2)%nat then ret tt
  else
    let color := argv !!! 1%nat in
    if (rt_strcmp color "red" =? 0)%Z then drv_led_set_red ;; ret tt
    else if (rt_strcmp color "green" =? 0)%Z then drv_led_set_green ;; ret tt
    else if (rt_strcmp color "blue" =? 0)%Z then drv_led_set_blue ;; ret tt
    else if (rt_strcmp color "yellow" =? 0)%Z then drv_led_set_yellow ;; ret tt
    else if (rt_strcmp color "magenta" =? 0)%Z then drv_led_set_magenta ;; ret tt
    else if (rt_strcmp color "cyan" =? 0)%Z then drv_led_set_cyan ;; ret tt
    else if (rt_strcmp color "white" =? 0)%Z then drv_led_all_on ;; ret tt
    else if (rt_strcmp color "black" =? 0)%Z then drv_led_all_off ;; ret tt
    else ret tt.

(** ** Observations used by the statements *)

(** The array of states has its three cells. *)
Definition led_wf (w : Leds) : Prop := List.length (led_states w) = 3%nat.

(** The component of a color that belongs to a channel. *)
Definition component (c : rgb_color_t) (channel : led_channel_t) : N :=
  if (channel =? LED_RED)%N then red c
  else if (channel =? LED_GREEN)%N then green c
  else blue c.

(** The state [drv_led_set_rgb_color] gives a channel for a component. *)
Definition lit (v : N) : led_state_t := if (0 <? v)%N then LED_ON else LED_OFF.

(** The level that shows a state on an LED's pin. *)
Definition level_of (state : led_state_t) : Z :=
  if (state =? LED_ON)%N then LED_ON_LEVEL else LED_OFF_LEVEL.

(** The output level of each LED's pin is the one of the channel's stored
    state. *)
Definition hw_agrees (w : Leds) : Prop :=
  forall channel : led_channel_t, led_channel_is_valid channel = true ->
    gpio_out w !! (led_pins !!! N.to_nat channel)
    = Some (level_of (led_states w !!! N.to_nat channel)).

(** A channel is stored as on exactly when its stored color component is
    not zero. *)
Definition color_agrees (w : Leds) : Prop :=
  forall channel : led_channel_t, led_channel_is_valid channel = true ->
    (led_states w !!! N.to_nat channel = LED_ON
     <-> component (current_rgb_color w) channel ≠ 0%N).

(** The calls of the driver's interface. *)
Inductive led_call : Type :=
| call_init
| call_deinit
| call_set_state (channel : led_channel_t) (state : led_state_t)
| call_get_state (channel : led_channel_t)
| call_set_rgb_color (color : option rgb_color_t)
| call_get_rgb_color (color : option rgb_color_t)
| call_all_off
| call_all_on
| call_set_red
| call_set_green
| call_set_blue
| call_set_yellow
| call_set_magenta
| call_set_cyan.

Definition run_call (c : led_call) : State Leds unit :=
  match c with
  | call_init => drv_led_init ;; ret tt
  | call_deinit => drv_led_deinit ;; ret tt
  | call_set_state channel state => drv_led_set_state channel state ;; ret tt
  | call_get_state channel => drv_led_get_state channel ;; ret tt
  | call_set_rgb_color color => drv_led_set_rgb_color color ;; ret tt
  | call_get_rgb_color color => drv_led_get_rgb_color color ;; ret tt
  | call_all_off => drv_led_all_off ;; ret tt
  | call_all_on => drv_led_all_on ;; ret tt
  | call_set_red => drv_led_set_red ;; ret tt
  | call_set_green => drv_led_set_green ;; ret tt
  | call_set_blue => drv_led_set_blue ;; ret tt
  | call_set_yellow => drv_led_set_yellow ;; ret tt
  | call_set_magenta => drv_led_set_magenta ;; ret tt
  | call_set_cyan => drv_led_set_cyan ;; ret tt
  end.

End LedDriver.

(** ** Properties of the LED driver *)

Section LedProperties.

Context {P : Platform}.

Lemma valid_cases (channel : led_channel_t) :
  led_channel_is_valid channel = true ->
  channel = LED_RED \/ channel = LED_GREEN \/ channel = LED_BLUE.
Proof.
  unfold led_channel_is_valid, LED_CHANNEL_MAX, LED_RED, LED_GREEN, LED_BLUE.
  intros H%N.ltb_lt. lia.
Qed.

Lemma invalid_iff (channel : led_channel_t) :
  led_channel_is_valid channel = false <-> (LED_CHANNEL_MAX <= channel)%N.
Proof. unfold led_channel_is_valid. apply N.ltb_ge. Qed.

Lemma wf_cells (w : Leds) :
  led_wf w -> exists a b c, led_states w = [a; b; c].
Proof.
  unfold led_wf. destruct (led_states w) as [|a [|b [|c [|d l]]]]; try discriminate.
  eauto.
Qed.

(** The color with one component replaced. *)
Lemma set_state_exec (channel : led_channel_t) (state : led_state_t) (w : Leds) :
  led_channel_is_valid channel = true ->
  exec (drv_led_set_state channel state) w =
  mkLeds (gpio_mode w)
    (<[led_pins !!! N.to_nat channel := level_of state]> (gpio_out w))
    (<[N.to_nat channel := state]> (led_states w))
    (let v := if (state =? LED_ON)%N then 255%N else 0%N in
     let c := current_rgb_color w in
     mk_rgb (if (channel =? LED_RED)%N then v else red c)
            (if (channel =? LED_GREEN)%N then v else green c)
            (if (channel =? LED_BLUE)%N then v else blue c)).
Proof. intros [->|[->| ->]]%valid_cases; reflexivity. Qed.

Lemma set_state_eval (channel : led_channel_t) (state : led_state_t) (w : Leds) :
  led_channel_is_valid channel = true ->
  eval (drv_led_set_state channel state) w = RT_EOK.
Proof. intros [->|[->| ->]]%valid_cases; reflexivity. Qed.

Lemma set_rgb_exec (c : rgb_color_t) (w : Leds) :
  exec (drv_led_set_rgb_color (Some c)) w =
  mkLeds (gpio_mode w)
    (<[LED_BLUE_PIN := level_of (lit (blue c))]>
       (<[LED_GREEN_PIN := level_of (lit (green c))]>
          (<[LED_RED_PIN := level_of (lit (red c))]> (gpio_out w))))
    (<[2%nat := lit (blue c)]>
       (<[1%nat := lit (green c)]> (<[0%nat := lit (red c)]> (led_states w))))
    c.
Proof. reflexivity. Qed.

Lemma init_exec (w : Leds) :
  exec drv_led_init w =
  mkLeds
    (<[LED_BLUE_PIN := PIN_MODE_OUTPUT_OD]>
       (<[LED_GREEN_PIN := PIN_MODE_OUTPUT_OD]>
          (<[LED_RED_PIN := PIN_MODE_OUTPUT_OD]> (gpio_mode w))))
    (<[LED_BLUE_PIN := LED_OFF_LEVEL]>
       (<[LED_GREEN_PIN := LED_OFF_LEVEL]>
          (<[LED_RED_PIN := LED_OFF_LEVEL]> (gpio_out w))))
    (<[2%nat := LED_OFF]> (<[1%nat := LED_OFF]> (<[0%nat := LED_OFF]> (led_states w))))
    (mk_rgb 0 0 0).
Proof. reflexivity. Qed.

Lemma get_state_eval (channel : led_channel_t) (w : Leds) :
  eval (drv_led_get_state channel) w =
  if led_channel_is_valid channel then led_states w !!! N.to_nat channel else LED_OFF.
Proof. unfold drv_led_get_state. destruct (led_channel_is_valid channel); reflexivity. Qed.

(** Invalid arguments: a channel outside the three, or a null color
    pointer, is refused with [-RT_EINVAL], which is not [RT_EOK], and
    nothing is changed or written; reading the state of such a channel
    gives [LED_OFF]. *)
Theorem led_invalid_arguments (channel : led_channel_t) (state : led_state_t) (w : Leds) :
  (LED_CHANNEL_MAX <= channel)%N ->
  drv_led_set_state channel state w = ((- RT_EINVAL)%Z, w) /\
  drv_led_get_state channel w = (LED_OFF, w) /\
  drv_led_set_rgb_color None w = ((- RT_EINVAL)%Z, w) /\
  drv_led_get_rgb_color None w = (((- RT_EINVAL)%Z, None), w) /\
  (- RT_EINVAL)%Z ≠ RT_EOK.
Proof.
  intros H%invalid_iff. unfold drv_led_set_state, drv_led_get_state. rewrite H.
  repeat split. discriminate.
Qed.

(** Setting one LED: for a channel of the three and any state value,
    [drv_led_set_state] returns [RT_EOK]; afterwards [drv_led_get_state]
    gives that value for the channel and what it gave before for every
    other channel, the channel's color component is 255 for [LED_ON] and 0
    otherwise, the other components and the pin modes are as before. *)
Theorem led_set_state_get_state (channel : led_channel_t) (state : led_state_t) (w : Leds) :
  (channel < LED_CHANNEL_MAX)%N -> led_wf w ->
  let w' := exec (drv_led_set_state channel state) w in
  eval (drv_led_set_state channel state) w = RT_EOK /\
  eval (drv_led_get_state channel) w' = state /\
  (forall other : led_channel_t, other ≠ channel ->
     eval (drv_led_get_state other) w' = eval (drv_led_get_state other) w /\
     ((other < LED_CHANNEL_MAX)%N ->
      component (current_rgb_color w') other = component (current_rgb_color w) other)) /\
  component (current_rgb_color w') channel = (if (state =? LED_ON)%N then 255%N else 0%N) /\
  led_wf w' /\
  gpio_mode w' = gpio_mode w.
Proof.
  intros Hv%N.ltb_lt Hwf w'. fold (led_channel_is_valid channel) in Hv.
  subst w'. rewrite set_state_exec, set_state_eval by exact Hv.
  destruct (wf_cells w Hwf) as (a & b & c & Hl). rewrite !get_state_eval, Hv. cbn [led_states current_rgb_color gpio_mode]. rewrite Hl.
  split; [reflexivity|]. split; [|split; [|split; [|split]]].
  - destruct (valid_cases channel Hv) as [->|[->| ->]]; reflexivity.
  - intros other Hne. split.
    + rewrite !get_state_eval. cbn [led_states]. rewrite Hl.
      destruct (led_channel_is_valid other) eqn:Ho; [|reflexivity].
      destruct (valid_cases channel Hv) as [->|[->| ->]],
               (valid_cases other Ho) as [->|[->| ->]]; try reflexivity; congruence.
    + intros Ho%N.ltb_lt. fold (led_channel_is_valid other) in Ho.
      unfold component. cbn [current_rgb_color red green blue].
      destruct (valid_cases channel Hv) as [->|[->| ->]],
               (valid_cases other Ho) as [->|[->| ->]]; try reflexivity; congruence.
  - destruct (valid_cases channel Hv) as [->|[->| ->]]; reflexivity.
  - unfold led_wf. cbn. destruct (valid_cases channel Hv) as [->|[->| ->]]; reflexivity.
  - reflexivity.
Qed.

(** The color round trip: what [drv_led_get_rgb_color] stores through its
    pointer after [drv_led_set_rgb_color] is the color that was set, with
    the component values as given, whatever the LEDs can show of it. *)
Theorem led_rgb_color_round_trip (c old : rgb_color_t) (w : Leds) :
  eval (drv_led_set_rgb_color (Some c)) w = RT_EOK /\
  eval (drv_led_get_rgb_color (Some old)) (exec (drv_led_set_rgb_color (Some c)) w)
  = (RT_EOK, Some c).
Proof. split; reflexivity. Qed.

Lemma run_call_exec (c : led_call) (w : Leds) :
  exec (run_call c) w =
  match c with
  | call_init => exec drv_led_init w
  | call_set_state channel state => exec (drv_led_set_state channel state) w
  | call_get_state _ | call_get_rgb_color _ | call_set_rgb_color None => w
  | call_set_rgb_color (Some color) => exec (drv_led_set_rgb_color (Some color)) w
  | call_deinit | call_all_off => exec (drv_led_set_rgb_color (Some RGB_COLOR_BLACK)) w
  | call_all_on => exec (drv_led_set_rgb_color (Some RGB_COLOR_WHITE)) w
  | call_set_red => exec (drv_led_set_rgb_color (Some RGB_COLOR_RED)) w
  | call_set_green => exec (drv_led_set_rgb_color (Some RGB_COLOR_GREEN)) w
  | call_set_blue => exec (drv_led_set_rgb_color (Some RGB_COLOR_BLUE)) w
  | call_set_yellow => exec (drv_led_set_rgb_color (Some RGB_COLOR_YELLOW)) w
  | call_set_magenta => exec (drv_led_set_rgb_color (Some RGB_COLOR_MAGENTA)) w
  | call_set_cyan => exec (drv_led_set_rgb_color (Some RGB_COLOR_CYAN)) w
  end.
Proof.
  destruct c as [| |channel state|channel|[color|]|[color|]| | | | | | | |];
    try reflexivity.
  all: unfold run_call; rewrite st_exec_bind.
  all: try (unfold drv_led_get_state; destruct (led_channel_is_valid channel));
    try (unfold drv_led_set_state; destruct (led_channel_is_valid channel));
    reflexivity.
Qed.

Lemma set_state_invalid (channel : led_channel_t) (state : led_state_t) (w : Leds) :
  led_channel_is_valid channel = false -> exec (drv_led_set_state channel state) w = w.
Proof. intros H. unfold drv_led_set_state. rewrite H. reflexivity. Qed.

Lemma lit_cases (v : N) :
  (v = 0%N /\ lit v = LED_OFF) \/ (v ≠ 0%N /\ lit v = LED_ON).
Proof. unfold lit. destruct (N.ltb_spec 0 v); [right|left]; split; (reflexivity || lia). Qed.

Lemma pins_distinct :
  NoDup led_pins ->
  LED_RED_PIN ≠ LED_GREEN_PIN /\ LED_RED_PIN ≠ LED_BLUE_PIN /\ LED_GREEN_PIN ≠ LED_BLUE_PIN.
Proof.
  unfold led_pins. rewrite !NoDup_cons, !not_elem_of_cons. tauto.
Qed.

Lemma insert3_twice {V : Type} (k1 k2 k3 : Z) (a b c a' b' c' : V) (m : gmap Z V) :
  <[k3 := c']> (<[k2 := b']> (<[k1 := a']>
    (<[k3 := c]> (<[k2 := b]> (<[k1 := a]> m)))))
  = <[k3 := c']> (<[k2 := b']> (<[k1 := a']> m)).
Proof.
  apply map_eq. intros k. rewrite !lookup_insert.
  repeat case_decide; reflexivity.
Qed.

Lemma cells3_twice (a b c a' b' c' : led_state_t) (l : list led_state_t) :
  <[2%nat := c']> (<[1%nat := b']> (<[0%nat := a']>
    (<[2%nat := c]> (<[1%nat := b]> (<[0%nat := a]> l)))))
  = <[2%nat := c']> (<[1%nat := b']> (<[0%nat := a']> l)).
Proof. destruct l as [|x [|y [|z l]]]; reflexivity. Qed.

(** The LEDs are on or off, nothing between: after
    [drv_led_set_rgb_color] each channel is [LED_ON] when its component is
    not zero and [LED_OFF] when it is zero, and two colors with zero in the
    same components leave the same stored states and the same pin levels. *)
Theorem led_color_is_thresholded (c c2 : rgb_color_t) (w : Leds) :
  led_wf w ->
  (red c = 0%N <-> red c2 = 0%N) ->
  (green c = 0%N <-> green c2 = 0%N) ->
  (blue c = 0%N <-> blue c2 = 0%N) ->
  let w' := exec (drv_led_set_rgb_color (Some c)) w in
  let w2 := exec (drv_led_set_rgb_color (Some c2)) w in
  (forall channel : led_channel_t, (channel < LED_CHANNEL_MAX)%N ->
     eval (drv_led_get_state channel) w'
     = if (component c channel =? 0)%N then LED_OFF else LED_ON) /\
  led_states w' = led_states w2 /\
  gpio_out w' = gpio_out w2.
Proof.
  intros Hwf Hr Hg Hb w' w2. subst w' w2. rewrite !set_rgb_exec.
  cbn [led_states gpio_out].
  assert (lit (red c) = lit (red c2) /\ lit (green c) = lit (green c2)
          /\ lit (blue c) = lit (blue c2)) as (-> & -> & ->).
  { destruct (lit_cases (red c)) as [[? ->]|[? ->]],
             (lit_cases (red c2)) as [[? ->]|[? ->]],
             (lit_cases (green c)) as [[? ->]|[? ->]],
             (lit_cases (green c2)) as [[? ->]|[? ->]],
             (lit_cases (blue c)) as [[? ->]|[? ->]],
             (lit_cases (blue c2)) as [[? ->]|[? ->]]; tauto. }
  split; [|split; reflexivity].
  intros channel Hv%N.ltb_lt. fold (led_channel_is_valid channel) in Hv.
  rewrite get_state_eval, Hv. cbn [led_states].
  destruct (wf_cells w Hwf) as (x & y & z & ->).
  destruct (valid_cases channel Hv) as [->|[->| ->]]; cbn.
  - destruct (lit_cases (red c2)) as [[H0 ->]|[H0 ->]];
      [apply Hr in H0 | rewrite <- Hr in H0];
      destruct (N.eqb_spec (red c) 0); (reflexivity || congruence).
  - destruct (lit_cases (green c2)) as [[H0 ->]|[H0 ->]];
      [apply Hg in H0 | rewrite <- Hg in H0];
      destruct (N.eqb_spec (green c) 0); (reflexivity || congruence).
  - destruct (lit_cases (blue c2)) as [[H0 ->]|[H0 ->]];
      [apply Hb in H0 | rewrite <- Hb in H0];
      destruct (N.eqb_spec (blue c) 0); (reflexivity || congruence).
Qed.

(** The last color wins: [drv_led_set_rgb_color] after
    [drv_led_set_rgb_color] leaves the state the second call alone leaves,
    pins, stored states and stored color. *)
Theorem led_set_rgb_color_overwrites (c1 c2 : rgb_color_t) (w : Leds) :
  exec (drv_led_set_rgb_color (Some c2)) (exec (drv_led_set_rgb_color (Some c1)) w)
  = exec (drv_led_set_rgb_color (Some c2)) w.
Proof.
  rewrite !set_rgb_exec. cbn [gpio_mode gpio_out led_states current_rgb_color].
  rewrite insert3_twice, cells3_twice. reflexivity.
Qed.

Lemma cell_head {A : Type} `{Inhabited A} (a : A) (l : list A) : (a :: l) !!! 0%nat = a.
Proof. reflexivity. Qed.

Lemma cell0 {A : Type} `{Inhabited A} (a b c : A) : [a; b; c] !!! 0%nat = a.
Proof. reflexivity. Qed.

Lemma cell1 {A : Type} `{Inhabited A} (a b c : A) : [a; b; c] !!! 1%nat = b.
Proof. reflexivity. Qed.

Lemma cell2 {A : Type} `{Inhabited A} (a b c : A) : [a; b; c] !!! 2%nat = c.
Proof. reflexivity. Qed.

Ltac led_norm :=
  unfold LED_RED, LED_GREEN, LED_BLUE in *;
  change (N.to_nat 0) with 0%nat in *;
  change (N.to_nat 1) with 1%nat in *;
  change (N.to_nat 2) with 2%nat in *;
  unfold component, led_pins in *; cbn in *;
  rewrite ?cell_head, ?cell0, ?cell1, ?cell2 in *.

Lemma set_rgb_wf (c : rgb_color_t) (w : Leds) :
  led_wf w -> led_wf (exec (drv_led_set_rgb_color (Some c)) w).
Proof.
  intros (x & y & z & Hl)%wf_cells. rewrite set_rgb_exec. unfold led_wf.
  cbn [led_states]. rewrite Hl. reflexivity.
Qed.

Lemma set_rgb_color_agrees (c : rgb_color_t) (w : Leds) :
  led_wf w -> color_agrees (exec (drv_led_set_rgb_color (Some c)) w).
Proof.
  intros (x & y & z & Hl)%wf_cells channel Hv. rewrite set_rgb_exec.
  cbn [led_states current_rgb_color]. rewrite Hl.
  destruct (valid_cases channel Hv) as [->|[->| ->]]; led_norm.
  - destruct (lit_cases (red c)) as [[? ->]|[? ->]]; unfold LED_ON, LED_OFF;
      split; intros; congruence.
  - destruct (lit_cases (green c)) as [[? ->]|[? ->]]; unfold LED_ON, LED_OFF;
      split; intros; congruence.
  - destruct (lit_cases (blue c)) as [[? ->]|[? ->]]; unfold LED_ON, LED_OFF;
      split; intros; congruence.
Qed.

Lemma set_rgb_hw_agrees (c : rgb_color_t) (w : Leds) :
  NoDup led_pins -> led_wf w -> hw_agrees (exec (drv_led_set_rgb_color (Some c)) w).
Proof.
  intros (Hrg & Hrb & Hgb)%pins_distinct (x & y & z & Hl)%wf_cells channel Hv.
  rewrite set_rgb_exec. cbn [led_states gpio_out]. rewrite Hl.
  destruct (valid_cases channel Hv) as [->|[->| ->]]; led_norm.
  - rewrite !lookup_insert_ne, lookup_insert_eq by congruence. reflexivity.
  - rewrite lookup_insert_ne, lookup_insert_eq by congruence. reflexivity.
  - rewrite lookup_insert_eq. reflexivity.
Qed.

(** What a call of the interface does to the state: nothing, what
    [drv_led_set_state] does on a channel of the three, or what
    [drv_led_set_rgb_color] does, after a change of pin modes only. *)
Lemma run_call_shape (call : led_call) (w : Leds) :
  exec (run_call call) w = w \/
  (exists channel state, led_channel_is_valid channel = true /\
     exec (run_call call) w = exec (drv_led_set_state channel state) w) \/
  (exists color m,
     exec (run_call call) w = exec (drv_led_set_rgb_color (Some color)) (set_gpio_mode m w)).
Proof.
  rewrite run_call_exec.
  destruct call as [| |channel state|channel|[color|]|[color|]| | | | | | | |].
  - right; right. exists RGB_COLOR_BLACK, (gpio_mode (exec drv_led_init w)). reflexivity.
  - right; right. exists RGB_COLOR_BLACK, (gpio_mode w). reflexivity.
  - destruct (led_channel_is_valid channel) eqn:Hv.
    + right; left. exists channel, state. split; [exact Hv | reflexivity].
    + left. apply set_state_invalid, Hv.
  - left; reflexivity.
  - right; right. exists color, (gpio_mode w). reflexivity.
  - left; reflexivity.
  - left; reflexivity.
  - left; reflexivity.
  - right; right. exists RGB_COLOR_BLACK, (gpio_mode w). reflexivity.
  - right; right. exists RGB_COLOR_WHITE, (gpio_mode w). reflexivity.
  - right; right. exists RGB_COLOR_RED, (gpio_mode w). reflexivity.
  - right; right. exists RGB_COLOR_GREEN, (gpio_mode w). reflexivity.
  - right; right. exists RGB_COLOR_BLUE, (gpio_mode w). reflexivity.
  - right; right. exists RGB_COLOR_YELLOW, (gpio_mode w). reflexivity.
  - right; right. exists RGB_COLOR_MAGENTA, (gpio_mode w). reflexivity.
  - right; right. exists RGB_COLOR_CYAN, (gpio_mode w). reflexivity.
Qed.

Lemma init_shape (w : Leds) :
  exec drv_led_init w =
  exec (drv_led_set_rgb_color (Some RGB_COLOR_BLACK))
    (set_gpio_mode (gpio_mode (exec drv_led_init w)) w).
Proof. reflexivity. Qed.

Lemma set_state_wf (channel : led_channel_t) (state : led_state_t) (w : Leds) :
  led_channel_is_valid channel = true -> led_wf w ->
  led_wf (exec (drv_led_set_state channel state) w).
Proof.
  intros Hv (x & y & z & Hl)%wf_cells. rewrite set_state_exec by exact Hv.
  unfold led_wf. cbn [led_states]. rewrite Hl.
  destruct (valid_cases channel Hv) as [->|[->| ->]]; reflexivity.
Qed.

Lemma set_state_color_agrees (channel : led_channel_t) (state : led_state_t) (w : Leds) :
  led_channel_is_valid channel = true -> led_wf w -> color_agrees w ->
  color_agrees (exec (drv_led_set_state channel state) w).
Proof.
  intros Hv (x & y & z & Hl)%wf_cells Hagree other Ho.
  rewrite set_state_exec by exact Hv.
  specialize (Hagree other Ho). rewrite Hl in Hagree.
  cbn [led_states current_rgb_color]. rewrite Hl.
  destruct (valid_cases channel Hv) as [->|[->| ->]],
           (valid_cases other Ho) as [->|[->| ->]]; led_norm;
    try exact Hagree;
    destruct (N.eqb_spec state LED_ON); unfold LED_ON in *;
    split; intros; congruence.
Qed.

Lemma set_state_hw_agrees (channel : led_channel_t) (state : led_state_t) (w : Leds) :
  NoDup led_pins -> led_channel_is_valid channel = true -> led_wf w -> hw_agrees w ->
  hw_agrees (exec (drv_led_set_state channel state) w).
Proof.
  intros (Hrg & Hrb & Hgb)%pins_distinct Hv (x & y & z & Hl)%wf_cells Hagree other Ho.
  rewrite set_state_exec by exact Hv.
  specialize (Hagree other Ho). rewrite Hl in Hagree.
  cbn [led_states gpio_out]. rewrite Hl.
  destruct (valid_cases channel Hv) as [->|[->| ->]],
           (valid_cases other Ho) as [->|[->| ->]]; led_norm;
    first [ rewrite lookup_insert_eq; reflexivity
          | rewrite lookup_insert_ne by congruence; exact Hagree ].
Qed.

(** The stored color and the stored states agree, and the array of states
    keeps its three cells: [drv_led_init] and [drv_led_set_rgb_color] leave
    each channel stored as on exactly when its stored color component is
    not zero, and every call of the interface keeps it so (also
    [drv_led_set_state], which sets the component to 255 or 0, and with a
    state value that is neither [LED_ON] nor [LED_OFF]). *)
Theorem led_color_follows_state (call : led_call) (c : rgb_color_t) (w : Leds) :
  led_wf w ->
  led_wf (exec (run_call call) w) /\
  (color_agrees w -> color_agrees (exec (run_call call) w)) /\
  color_agrees (exec drv_led_init w) /\
  color_agrees (exec (drv_led_set_rgb_color (Some c)) w).
Proof.
  intros Hwf. split; [|split; [|split]].
  - destruct (run_call_shape call w) as [->|[(ch & st & Hv & ->)|(col & m & ->)]].
    + exact Hwf.
    + apply set_state_wf; assumption.
    + apply set_rgb_wf. exact Hwf.
  - intros Hagree.
    destruct (run_call_shape call w) as [->|[(ch & st & Hv & ->)|(col & m & ->)]].
    + exact Hagree.
    + apply set_state_color_agrees; assumption.
    + apply set_rgb_color_agrees. exact Hwf.
  - rewrite init_shape. apply set_rgb_color_agrees. exact Hwf.
  - apply set_rgb_color_agrees, Hwf.
Qed.

(** The pins show the stored states. When the three LED pins are three
    different pins, after [drv_led_init] and after [drv_led_set_rgb_color]
    the output level of each LED's pin is low when the channel is stored as
    [LED_ON] and high otherwise, and every call of the interface keeps it
    so. *)
Theorem led_pins_follow_state (call : led_call) (c : rgb_color_t) (w : Leds) :
  NoDup led_pins -> led_wf w ->
  (hw_agrees w -> hw_agrees (exec (run_call call) w)) /\
  hw_agrees (exec drv_led_init w) /\
  hw_agrees (exec (drv_led_set_rgb_color (Some c)) w).
Proof.
  intros Hnd Hwf. split; [|split].
  - intros Hagree.
    destruct (run_call_shape call w) as [->|[(ch & st & Hv & ->)|(col & m & ->)]].
    + exact Hagree.
    + apply set_state_hw_agrees; assumption.
    + apply set_rgb_hw_agrees; [exact Hnd | exact Hwf].
  - rewrite init_shape. apply set_rgb_hw_agrees; [exact Hnd | exact Hwf].
  - apply set_rgb_hw_agrees; assumption.
Qed.

(** Initialisation: [drv_led_init] returns [RT_EOK]; afterwards every
    channel reads [LED_OFF], the stored color is black, each LED pin is an
    open-drain output at the high level, every other pin is as before, and
    a second call changes nothing. *)
Theorem led_init_resets (w : Leds) :
  led_wf w ->
  let w' := exec drv_led_init w in
  eval drv_led_init w = RT_EOK /\
  (forall channel : led_channel_t, eval (drv_led_get_state channel) w' = LED_OFF) /\
  current_rgb_color w' = RGB_COLOR_BLACK /\
  (forall pin : Z, pin ∈ led_pins ->
     gpio_mode w' !! pin = Some PIN_MODE_OUTPUT_OD /\ gpio_out w' !! pin = Some PIN_HIGH) /\
  (forall pin : Z, pin ∉ led_pins ->
     gpio_mode w' !! pin = gpio_mode w !! pin /\ gpio_out w' !! pin = gpio_out w !! pin) /\
  drv_led_init w' = (RT_EOK, w').
Proof.
  intros Hwf w'. destruct (wf_cells w Hwf) as (x & y & z & Hl).
  split; [reflexivity|]. split; [|split; [reflexivity|split; [|split]]].
  - intros channel. rewrite get_state_eval. unfold w'. rewrite init_exec.
    cbn [led_states]. rewrite Hl.
    destruct (led_channel_is_valid channel) eqn:Hv; [|reflexivity].
    destruct (valid_cases channel Hv) as [->|[->| ->]]; reflexivity.
  - intros pin Hin. unfold w'. rewrite init_exec. cbn [gpio_mode gpio_out].
    unfold led_pins in Hin. rewrite !elem_of_cons, elem_of_nil in Hin.
    rewrite !lookup_insert.
    repeat case_decide; (split; reflexivity) || (exfalso; intuition congruence).
  - intros pin Hnin. unfold w'. rewrite init_exec. cbn [gpio_mode gpio_out].
    unfold led_pins in Hnin. rewrite !not_elem_of_cons in Hnin.
    destruct Hnin as (Hr & Hg & Hb & _).
    rewrite !lookup_insert_ne by congruence. split; reflexivity.
  - rewrite (st_run drv_led_init w'). f_equal.
    unfold w'. rewrite !init_exec. cbn [gpio_mode gpio_out led_states current_rgb_color].
    rewrite !insert3_twice, cells3_twice. reflexivity.
Qed.

(** Teardown: [drv_led_deinit] returns [RT_EOK] and does what
    [drv_led_all_off] does: every channel reads [LED_OFF], the stored color
    is black and each LED pin is at the high level; the pins keep the mode
    they had. *)
Theorem led_deinit_switches_off (w : Leds) :
  led_wf w ->
  let w' := exec drv_led_deinit w in
  eval drv_led_deinit w = RT_EOK /\
  w' = exec drv_led_all_off w /\
  (forall channel : led_channel_t, eval (drv_led_get_state channel) w' = LED_OFF) /\
  current_rgb_color w' = RGB_COLOR_BLACK /\
  (forall pin : Z, pin ∈ led_pins -> gpio_out w' !! pin = Some PIN_HIGH) /\
  gpio_mode w' = gpio_mode w.
Proof.
  intros Hwf w'. destruct (wf_cells w Hwf) as (x & y & z & Hl).
  assert (Hw' : w' = exec (drv_led_set_rgb_color (Some RGB_COLOR_BLACK)) w) by reflexivity.
  split; [reflexivity|]. split; [reflexivity|].
  rewrite Hw', set_rgb_exec. cbn [gpio_mode gpio_out led_states current_rgb_color].
  split; [|split; [reflexivity|split; [|reflexivity]]].
  - intros channel. rewrite get_state_eval. cbn [led_states]. rewrite Hl.
    destruct (led_channel_is_valid channel) eqn:Hv; [|reflexivity].
    destruct (valid_cases channel Hv) as [->|[->| ->]]; reflexivity.
  - intros pin Hin. unfold led_pins in Hin. rewrite !elem_of_cons, elem_of_nil in Hin.
    rewrite !lookup_insert.
    repeat case_decide; reflexivity || (exfalso; intuition congruence).
Qed.

(** The repository's LED tests pass: on a driver whose array of states has
    its three cells, [led_basic_test], [led_color_preset_test] and
    [drv_led_full_test] return [RT_EOK], whatever the pins and the stored
    values were before and whatever the uninitialised local held; the full
    test leaves every channel [LED_OFF] and the stored color black. *)
Theorem led_tests_pass (current_color : rgb_color_t) (w : Leds) :
  led_wf w ->
  let w' := exec (drv_led_full_test current_color) w in
  eval (led_basic_test current_color) w = RT_EOK /\
  eval led_color_preset_test w = RT_EOK /\
  eval (drv_led_full_test current_color) w = RT_EOK /\
  led_states w' = [LED_OFF; LED_OFF; LED_OFF] /\
  current_rgb_color w' = RGB_COLOR_BLACK.
Proof.
  intros (x & y & z & Hl)%wf_cells. destruct w as [gm go ls col].
  cbn [led_states] in Hl. subst ls. cbn zeta. repeat split.
Qed.

Lemma word_test (s lit : string) :
  nul_free lit = true ->
  (rt_strcmp s lit =? 0)%Z = bool_decide (c_str s = lit).
Proof.
  intros Hlit. destruct (Z.eqb_spec (rt_strcmp s lit) 0) as [H|H];
    rewrite rt_strcmp_zero, (c_str_nul_free lit Hlit) in H.
  - rewrite bool_decide_eq_true_2 by exact H. reflexivity.
  - rewrite bool_decide_eq_false_2 by exact H. reflexivity.
Qed.

(** The shell commands leave the LED alone on bad input: [led_ctrl] with
    fewer than three words or a channel word other than red, green, blue
    and all, and [led_color] with fewer than two words or a word that is
    none of its eight colors, change nothing. *)
Theorem led_commands_ignore_bad_input (argv : list string) (w : Leds) :
  ((List.length argv < 3)%nat \/
   c_str (argv !!! 1%nat) ∉ ["red"; "green"; "blue"; "all"]%string ->
   exec (led_ctrl argv) w = w) /\
  ((List.length argv < 2)%nat \/
   c_str (argv !!! 1%nat) ∉
     ["red"; "green"; "blue"; "yellow"; "magenta"; "cyan"; "white"; "black"]%string ->
   exec (led_color argv) w = w).
Proof.
  split.
  - intros H. unfold led_ctrl. cbn zeta.
    destruct (Nat.ltb_spec (List.length argv) 3) as [|Hlen]; [reflexivity|].
    destruct H as [H|H]; [lia|].
    rewrite !not_elem_of_cons in H. destruct H as (H1 & H2 & H3 & H4 & _).
    rewrite !(word_test (argv !!! 1%nat)) by reflexivity.
    rewrite !bool_decide_eq_false_2 by assumption. reflexivity.
  - intros H. unfold led_color. cbn zeta.
    destruct (Nat.ltb_spec (List.length argv) 2) as [|Hlen]; [reflexivity|].
    destruct H as [H|H]; [lia|].
    rewrite !not_elem_of_cons in H.
    destruct H as (H1 & H2 & H3 & H4 & H5 & H6 & H7 & H8 & _).
    rewrite !(word_test (argv !!! 1%nat)) by reflexivity.
    rewrite !bool_decide_eq_false_2 by assumption. reflexivity.
Qed.

(** [led_ctrl] switches on only for the word on: with three words or more
    and the channel word red, green, blue or all, it does what
    [drv_led_set_state] on that channel (for all: [drv_led_all_on] or
    [drv_led_all_off]) does with [LED_ON] when the state word is exactly
    on, and with [LED_OFF] for every other state word. *)
Theorem led_ctrl_state_word (argv : list string) (w : Leds) :
  (3 <= List.length argv)%nat ->
  let channel := c_str (argv !!! 1%nat) in
  let led_state := if decide (c_str (argv !!! 2%nat) = "on"%string) then LED_ON else LED_OFF in
  (channel = "red"%string ->
   exec (led_ctrl argv) w = exec (drv_led_set_state LED_RED led_state) w) /\
  (channel = "green"%string ->
   exec (led_ctrl argv) w = exec (drv_led_set_state LED_GREEN led_state) w) /\
  (channel = "blue"%string ->
   exec (led_ctrl argv) w = exec (drv_led_set_state LED_BLUE led_state) w) /\
  (channel = "all"%string ->
   exec (led_ctrl argv) w =
   exec (if decide (c_str (argv !!! 2%nat) = "on"%string)
         then drv_led_all_on else drv_led_all_off) w).
Proof.
  intros Hlen channel led_state. subst channel led_state.
  unfold led_ctrl. cbn zeta.
  destruct (Nat.ltb_spec (List.length argv) 3) as [|_]; [lia|].
  rewrite !(word_test (argv !!! 1%nat)), (word_test (argv !!! 2%nat)) by reflexivity.
  repeat split; intros Hc; rewrite Hc;
    destruct (decide (c_str (argv !!! 2%nat) = "on"%string)) as [Hon|Hon];
    rewrite ?(bool_decide_eq_true_2 _ Hon), ?(bool_decide_eq_false_2 _ Hon);
    reflexivity.
Qed.

Lemma led_pin_elem (channel : led_channel_t) :
  led_channel_is_valid channel = true -> led_pins !!! N.to_nat channel ∈ led_pins.
Proof.
  intros [->|[->| ->]]%valid_cases; unfold led_pins; led_norm;
    rewrite !elem_of_cons; tauto.
Qed.

(** The driver keeps to its three pins: no call of the interface changes
    the mode or the output level of a pin that is not one of the LED pins,
    and only [drv_led_init] changes the mode of any pin. *)
Theorem led_touches_only_its_pins (call : led_call) (pin : Z) (w : Leds) :
  pin ∉ led_pins ->
  gpio_out (exec (run_call call) w) !! pin = gpio_out w !! pin /\
  gpio_mode (exec (run_call call) w) !! pin = gpio_mode w !! pin /\
  (call ≠ call_init -> gpio_mode (exec (run_call call) w) = gpio_mode w).
Proof.
  intros Hnin.
  assert (Hpins := Hnin). unfold led_pins in Hpins. rewrite !not_elem_of_cons in Hpins.
  destruct Hpins as (Hr & Hg & Hb & _).
  assert (Hrgb : forall color,
            gpio_out (exec (drv_led_set_rgb_color (Some color)) w) !! pin = gpio_out w !! pin /\
            gpio_mode (exec (drv_led_set_rgb_color (Some color)) w) !! pin = gpio_mode w !! pin /\
            (call ≠ call_init ->
             gpio_mode (exec (drv_led_set_rgb_color (Some color)) w) = gpio_mode w)).
  { intros color. rewrite set_rgb_exec. cbn [gpio_out gpio_mode].
    rewrite !lookup_insert_ne by congruence. repeat split. }
  rewrite run_call_exec.
  destruct call as [| |channel state|channel|[color|]|[color|]| | | | | | | |].
  - rewrite init_exec. cbn [gpio_out gpio_mode].
    rewrite !lookup_insert_ne by congruence. repeat split. congruence.
  - apply Hrgb.
  - destruct (led_channel_is_valid channel) eqn:Hv.
    + rewrite set_state_exec by exact Hv. cbn [gpio_out gpio_mode].
      rewrite lookup_insert_ne; [repeat split|].
      intros <-. apply Hnin, led_pin_elem, Hv.
    + rewrite set_state_invalid by exact Hv. repeat split.
  - repeat split.
  - apply Hrgb.
  - repeat split.
  - repeat split.
  - repeat split.
  - apply Hrgb.
  - apply Hrgb.
  - apply Hrgb.
  - apply Hrgb.
  - apply Hrgb.
  - apply Hrgb.
  - apply Hrgb.
  - apply Hrgb.
Qed.

(** Setting two different LEDs in either order gives the same state, when
    the three LED pins are three different pins. *)
Theorem led_set_state_commutes (a b : led_channel_t) (s t : led_state_t) (w : Leds) :
  NoDup led_pins -> led_wf w ->
  (a < LED_CHANNEL_MAX)%N -> (b < LED_CHANNEL_MAX)%N -> a ≠ b ->
  exec (drv_led_set_state b t) (exec (drv_led_set_state a s) w)
  = exec (drv_led_set_state a s) (exec (drv_led_set_state b t) w).
Proof.
  intros (Hrg & Hrb & Hgb)%pins_distinct (x & y & z & Hl)%wf_cells
         Ha%N.ltb_lt Hb%N.ltb_lt Hne.
  fold (led_channel_is_valid a) in Ha. fold (led_channel_is_valid b) in Hb.
  rewrite !set_state_exec by assumption.
  cbn [gpio_mode gpio_out led_states current_rgb_color red green blue]. rewrite Hl.
  destruct (valid_cases a Ha) as [->|[->| ->]],
           (valid_cases b Hb) as [->|[->| ->]]; try congruence; led_norm;
    f_equal; apply insert_insert_ne; congruence.
Qed.

End LedProperties.

(** ** The statements on the board of the demonstration *)

Lemma boot_wf : led_wf boot.
Proof. reflexivity. Qed.

Lemma demo_pins_NoDup : NoDup (led_pins (P := Demo.board)).
Proof. compute_done. Qed.

Lemma led_invalid_arguments_witness :
  drv_led_set_state (P := Demo.board) 3%N LED_ON boot = ((- RT_EINVAL)%Z, boot) /\
  drv_led_get_state 3%N boot = (LED_OFF, boot).
Proof.
  destruct (led_invalid_arguments (P := Demo.board) 3%N LED_ON boot) as (H1 & H2 & _).
  - unfold LED_CHANNEL_MAX. lia.
  - split; assumption.
Defined.

Lemma led_set_state_get_state_witness :
  eval (drv_led_get_state LED_GREEN)
    (exec (drv_led_set_state (P := Demo.board) LED_GREEN LED_ON) boot) = LED_ON /\
  component (current_rgb_color (exec (drv_led_set_state (P := Demo.board) LED_GREEN LED_ON) boot))
    LED_GREEN = 255%N.
Proof.
  destruct (led_set_state_get_state (P := Demo.board) LED_GREEN LED_ON boot)
    as (_ & Hget & _ & Hcomp & _).
  - reflexivity.
  - exact boot_wf.
  - split; [exact Hget | exact Hcomp].
Defined.

Lemma led_color_is_thresholded_witness :
  led_states (exec (drv_led_set_rgb_color (P := Demo.board) (Some RGB_COLOR_ORANGE)) boot)
  = led_states (exec (drv_led_set_rgb_color (P := Demo.board) (Some RGB_COLOR_YELLOW)) boot) /\
  gpio_out (exec (drv_led_set_rgb_color (P := Demo.board) (Some RGB_COLOR_ORANGE)) boot)
  = gpio_out (exec (drv_led_set_rgb_color (P := Demo.board) (Some RGB_COLOR_YELLOW)) boot).
Proof.
  destruct (led_color_is_thresholded (P := Demo.board) RGB_COLOR_ORANGE RGB_COLOR_YELLOW boot)
    as (_ & Hs & Ho).
  - exact boot_wf.
  - split; discriminate.
  - split; discriminate.
  - split; reflexivity.
  - split; [exact Hs | exact Ho].
Defined.

Lemma led_color_follows_state_witness :
  color_agrees
    (exec (run_call (P := Demo.board) (call_set_state LED_RED 7%N))
       (exec (drv_led_init (P := Demo.board)) boot)).
Proof.
  destruct (led_color_follows_state (P := Demo.board) call_init RGB_COLOR_BLACK boot boot_wf)
    as (Hwf & _ & Hinit & _).
  destruct (led_color_follows_state (P := Demo.board) (call_set_state LED_RED 7%N)
              RGB_COLOR_BLACK (exec (drv_led_init (P := Demo.board)) boot)) as (_ & Hkeep & _).
  - reflexivity.
  - apply Hkeep, Hinit.
Defined.

Lemma led_pins_follow_state_witness :
  hw_agrees (P := Demo.board)
    (exec (run_call (P := Demo.board) (call_set_state LED_BLUE LED_ON))
       (exec (drv_led_init (P := Demo.board)) boot)).
Proof.
  destruct (led_pins_follow_state (P := Demo.board) call_init RGB_COLOR_BLACK boot
              demo_pins_NoDup boot_wf) as (_ & Hinit & _).
  destruct (led_pins_follow_state (P := Demo.board) (call_set_state LED_BLUE LED_ON)
              RGB_COLOR_BLACK (exec (drv_led_init (P := Demo.board)) boot)) as (Hkeep & _).
  - exact demo_pins_NoDup.
  - reflexivity.
  - apply Hkeep, Hinit.
Defined.

Lemma led_init_resets_witness :
  drv_led_init (P := Demo.board) (exec (drv_led_init (P := Demo.board)) boot)
  = (RT_EOK, exec (drv_led_init (P := Demo.board)) boot) /\
  gpio_mode (exec (drv_led_init (P := Demo.board)) boot) !! 6%Z = Some PIN_MODE_OUTPUT_OD.
Proof.
  destruct (led_init_resets (P := Demo.board) boot boot_wf) as (_ & _ & _ & Hpins & _ & Hidem).
  split; [exact Hidem|]. apply (Hpins 6%Z). compute_done.
Defined.

Lemma led_deinit_switches_off_witness :
  eval (drv_led_get_state LED_RED)
    (exec (drv_led_deinit (P := Demo.board)) (exec (drv_led_all_on (P := Demo.board)) boot))
  = LED_OFF.
Proof.
  destruct (led_deinit_switches_off (P := Demo.board)
              (exec (drv_led_all_on (P := Demo.board)) boot)) as (_ & _ & Hoff & _).
  - reflexivity.
  - apply Hoff.
Defined.

Lemma led_tests_pass_witness :
  eval (drv_led_full_test (P := Demo.board) RGB_COLOR_PINK) boot = RT_EOK.
Proof.
  destruct (led_tests_pass (P := Demo.board) RGB_COLOR_PINK boot boot_wf) as (_ & _ & H & _).
  exact H.
Defined.

Lemma led_commands_ignore_bad_input_witness :
  exec (led_ctrl (P := Demo.board) ["led_ctrl"; "purple"; "on"]%string) boot = boot /\
  exec (led_color (P := Demo.board) ["led_color"]%string) boot = boot.
Proof.
  destruct (led_commands_ignore_bad_input (P := Demo.board)
              ["led_ctrl"; "purple"; "on"]%string boot) as (Hctrl & _).
  destruct (led_commands_ignore_bad_input (P := Demo.board)
              ["led_color"]%string boot) as (_ & Hcolor).
  split.
  - apply Hctrl. right. compute_done.
  - apply Hcolor. left. cbn. lia.
Defined.

Lemma led_ctrl_state_word_witness :
  exec (led_ctrl (P := Demo.board) ["led_ctrl"; "red"; "ON"]%string) boot
  = exec (drv_led_set_state (P := Demo.board) LED_RED LED_OFF) boot.
Proof.
  destruct (led_ctrl_state_word (P := Demo.board) ["led_ctrl"; "red"; "ON"]%string boot)
    as (Hred & _).
  - cbn. lia.
  - apply Hred. reflexivity.
Defined.

Lemma led_set_state_commutes_witness :
  exec (drv_led_set_state (P := Demo.board) LED_BLUE LED_ON)
    (exec (drv_led_set_state (P := Demo.board) LED_RED LED_ON) boot)
  = exec (drv_led_set_state (P := Demo.board) LED_RED LED_ON)
      (exec (drv_led_set_state (P := Demo.board) LED_BLUE LED_ON) boot).
Proof.
  apply (led_set_state_commutes (P := Demo.board) LED_RED LED_BLUE LED_ON LED_ON boot).
  - exact demo_pins_NoDup.
  - exact boot_wf.
  - reflexivity.
  - reflexivity.
  - discriminate.
Defined.

Lemma led_touches_only_its_pins_witness :
  gpio_out (exec (run_call (P := Demo.board) call_all_on) boot) !! 36%Z = gpio_out boot !! 36%Z.
Proof.
  destruct (led_touches_only_its_pins (P := Demo.board) call_all_on 36%Z boot) as (H & _).
  - compute_done.
  - exact H.
Defined.

End Led.

(** * The button test (drv_button_test.c) *)

Section ButtonTest.

Context {P : Platform}.

Definition is_null {A : Type} (p : option A) : bool :=
  match p with
  | None => true
  | Some _ => false
  end.

(** lines 84-136; console output is left out. *)
Definition button_basic_test : State World rt_err_t :=
  result <- drv_button_init ;;
  if negb (result =? RT_EOK)%Z then ret (- RT_ERROR)%Z else
  let btn1 := drv_button_get_handle (Some "key1"%string) in
  let btn2 := drv_button_get_handle (Some "key2"%string) in
  let btn_invalid := drv_button_get_handle (Some "invalid_key"%string) in
  if is_null btn1 || is_null btn2 then ret (- RT_ERROR)%Z else
  if negb (is_null btn_invalid) then ret (- RT_ERROR)%Z else
  result <- drv_button_attach_callback (Some "key1"%string) BUTTON_ALL_RIGGER
              (Some test_button_callback) ;;
  if negb (result =? RT_EOK)%Z then ret (- RT_ERROR)%Z else
  state <- drv_button_get_state (Some "key1"%string) ;;
  event <- drv_button_get_event (Some "key1"%string) ;;
  ret RT_EOK.

(** The repository's button test passes: [button_basic_test] returns
    [RT_EOK] in every state of the board, the statics and the engine, and
    leaves [test_button_callback] bound on key 1 for every kind the engine
    can report. *)
Theorem button_basic_test_passes (w : World) :
  eval button_basic_test w = RT_EOK /\
  forall K : Button_Event, K ∈ trigger_kinds ->
    CallBack_Function (load key1_btn (exec button_basic_test w)) !! K
    = Some test_button_callback.
Proof.
  split; [reflexivity|]. intros K HK.
  unfold button_basic_test. rewrite exec_bind, init_eval.
  generalize (exec drv_button_init w). intros w1.
  transitivity (CallBack_Function
                  (load key1_btn
                     (exec (Button_Attach key1_btn BUTTON_ALL_RIGGER
                              (Some test_button_callback)) w1)) !! K).
  - reflexivity.
  - rewrite Button_Attach_table, decide_True by exact HK. reflexivity.
Qed.

End ButtonTest.

Lemma button_basic_test_passes_witness :
  CallBack_Function (load key1_btn (exec button_basic_test Demo.power_on)) !! BUTTON_LONG
  = Some test_button_callback.
Proof.
  destruct (button_basic_test_passes Demo.power_on) as [_ Hbound].
  apply Hbound. compute_done.
Defined.
